(** * Gradebook scoring engine: totals, averages, grades and ranks

    A shallow embedding of [gradebook/model.py], [gradebook/core.py] and of
    the grading and ranking part of [gradebook/gui.py], with the properties
    of the scoring engine stated over it.

    Python floats are IEEE 754 binary64 values and are modelled by Rocq's
    primitive floats; Python integers are modelled by [Z]; dictionaries by
    [gmap]; objects that are compared by [id()] live in a store indexed by
    their address. *)

From Stdlib Require Import ZArith Floats Uint63 Sorted.
From stdpp Require Import base option list strings gmap sorting.

Set Default Proof Using "Type".

(** ** Python values and exceptions *)

(** Values that may be found in a [Student.scores] dictionary or passed
    to [set_score]. The annotation is [Dict[str, float]], which Python does
    not enforce: a caller can store an [int], [None] or a string. *)
Inductive pyval : Type :=
  | PyFloat (x : float)
  | PyInt (z : Z)
  | PyStr (s : string)
  | PyNone.

Inductive exn : Type :=
  | TypeError
  | ValueError
  | IndexError
  | OverflowError.

Inductive outcome (A : Type) : Type :=
  | Ok (a : A)
  | Raise (e : exn).
Arguments Ok {A} a.
Arguments Raise {A} e.

Abbreviation addr := nat.

(** ** model.py *)

Record Student : Type := mkStudent {
  name : string;
  scores : gmap string pyval;
  phone : string;
  note : string
}.

(** [students] holds references: the same object may be listed twice. *)
Record GradeBook : Type := mkGradeBook {
  subjects : list string;
  students : list addr
}.

(** The part of the Python heap the engine can reach: one grade book and
    the student objects. *)
Record Store : Type := mkStore {
  book : GradeBook;
  objs : gmap addr Student
}.

(** [Student()] with the dataclass defaults. *)
Definition Student_default : Student :=
  {| name := ""; scores := ∅; phone := ""; note := "" |}.

#[global] Instance Student_inhabited : Inhabited Student :=
  populate Student_default.

(** ** State and exception monad *)

Definition M (A : Type) : Type := Store → outcome A * Store.

#[global] Instance M_ret : MRet M := λ A a σ, (Ok a, σ).

#[global] Instance M_bind : MBind M := λ A B f m σ,
  match m σ with
  | (Ok a, σ') => f a σ'
  | (Raise e, σ') => (Raise e, σ')
  end.

Definition lift {A} (o : outcome A) : M A := λ σ, (o, σ).
Definition read_subjects : M (list string) := λ σ, (Ok (subjects (book σ)), σ).
Definition read_students : M (list addr) := λ σ, (Ok (students (book σ)), σ).
Definition write_students (l : list addr) : M unit := λ σ,
  (Ok (), {| book := {| subjects := subjects (book σ); students := l |};
             objs := objs σ |}).

(** Python has no dangling reference; an address that is not in the store
    reads as [Student()]. *)
Definition deref (a : addr) : M Student := λ σ, (Ok (objs σ !!! a), σ).

(** [try: body except (TypeError, ValueError): handler] *)
Definition try_except {A} (body : outcome A) (handler : outcome A) : outcome A :=
  match body with
  | Raise TypeError | Raise ValueError => handler
  | other => other
  end.

(** The exception monad alone, for computations that do not touch the
    store. *)
#[global] Instance outcome_ret : MRet outcome := λ A a, Ok a.

#[global] Instance outcome_bind : MBind outcome := λ A B f o,
  match o with
  | Ok a => f a
  | Raise e => Raise e
  end.

(** Python's conversion of a string to a float ([float("85.5")]); [None]
    when the string is rejected with ValueError. It belongs to the
    interpreter, not to this program. *)
Class Interp : Type := { str_to_float : string → option float }.

(** [float(z)] for an [int]: the nearest binary64 value, ties to even;
    OverflowError when that is beyond the largest finite float. *)
Definition float_of_int (z : Z) : outcome float :=
  match binary_normalize prec emax z 0 false with
  | S754_infinity _ => Raise OverflowError
  | sf => Ok (SF2Prim sf)
  end.

Section Engine.

Context {interp : Interp}.

(** [float(v)] *)
Definition py_float (v : pyval) : outcome float :=
  match v with
  | PyFloat x => Ok x
  | PyInt z => float_of_int z
  | PyStr s =>
      match str_to_float s with
      | Some x => Ok x
      | None => Raise ValueError
      end
  | PyNone => Raise TypeError
  end.

(** [Student.get_score]: [float(self.scores.get(subject, 0.0))] *)
Definition get_score (self : addr) (subject : string) : M float :=
  st ← deref self;
  lift (py_float (default (PyFloat 0) (scores st !! subject))).

(** [list.pop(index)]: negative indices count from the end. *)
Definition py_pop {A} (l : list A) (index : Z) : outcome (list A) :=
  let n := Z.of_nat (length l) in
  if bool_decide (0 ≤ index < n)%Z then Ok (delete (Z.to_nat index) l)
  else if bool_decide (- n ≤ index < 0)%Z then Ok (delete (Z.to_nat (n + index)) l)
  else Raise IndexError.

(** [GradeBook.remove_student] *)
Definition remove_student (index : Z) : M unit :=
  l ← read_students;
  if bool_decide (0 ≤ index < Z.of_nat (length l))%Z then
    l' ← lift (py_pop l index);
    write_students l'
  else mret ().

(** ** core.py *)

(** [avg >= 90] compares a float with an int constant; 90, 80, 70 and 60
    are exactly representable, so this is the float comparison. *)
Definition grade_from_avg (avg : float) : string :=
  if PrimFloat.leb 90 avg then "A"
  else if PrimFloat.leb 80 avg then "B"
  else if PrimFloat.leb 70 avg then "C"
  else if PrimFloat.leb 60 avg then "D"
  else "F".

(** The dictionaries built by [recalculate]. *)
Record ResultDict : Type := mkResult {
  r_student : addr;
  r_total : float;
  r_avg : float;
  r_grade : string;
  r_rank : option Z
}.

#[global] Instance ResultDict_inhabited : Inhabited ResultDict :=
  populate {| r_student := 0; r_total := 0; r_avg := 0; r_grade := "";
              r_rank := None |}.

Definition set_rank (d : ResultDict) (rk : option Z) : ResultDict :=
  {| r_student := r_student d; r_total := r_total d; r_avg := r_avg d;
     r_grade := r_grade d; r_rank := rk |}.

(** [sum(scores)]: the floats added from left to right, starting from 0.
    The integer 0 that Python returns for an empty list equals the float
    0.0. (CPython 3.12 and later compensate the rounding errors of the
    additions; the result is the same whenever the additions are exact.) *)
Definition py_sum (l : list float) : float := fold_left PrimFloat.add l 0%float.

(** [float(n)] for a length [n]; exact below [2^53] and rounded to nearest
    even below [2^63]. *)
Definition float_of_len (n : Z) : float := PrimFloat.of_uint63 (Uint63.of_Z n).

(** Lines 37-42: the value of one subject. [get_score] is called before
    the [try]; inside it, [val] is already a float.
    [v = float(val) if val is not None else 0.0] *)
Definition subject_value (s : addr) (subj : string) : M float :=
  val ← get_score s subj;
  let val := PyFloat val in
  lift (try_except
          (match val with PyNone => Ok 0%float | _ => py_float val end)
          (Ok 0%float)).

(** Lines 34-57: the body of the loop over the students. *)
Definition student_result (subj_count : Z) (s : addr) : M ResultDict :=
  subjs ← read_subjects;
  scores ← mapM (subject_value s) subjs;
  let total := py_sum scores in
  let avg := if bool_decide (subj_count > 0)%Z
             then PrimFloat.div total (float_of_len subj_count)
             else 0%float in
  mret {| r_student := s; r_total := total; r_avg := avg;
          r_grade := grade_from_avg avg; r_rank := None |}.

(** [sorted(l, key=..., reverse=True)]: stable, descending, and comparing
    keys with [<] only. On keys without NaN there is one such
    arrangement, whatever the algorithm; on keys with NaN the arrangement
    Python returns depends on its algorithm, and only the fact that it is a
    permutation of the input is common to it and to this definition. *)
Fixpoint insert_desc {A} (key : A → float) (x : A) (l : list A) : list A :=
  match l with
  | [] => [x]
  | y :: l' =>
      if PrimFloat.ltb (key x) (key y) then y :: insert_desc key x l'
      else x :: y :: l'
  end.

Definition sorted_desc {A} (key : A → float) (l : list A) : list A :=
  foldr (insert_desc key) [] l.

(** Lines 64-70. The dictionaries are shared between [results] and
    [sorted_by_total]; a dictionary is identified by its position in
    [results], and [sorted_by_total] is a list of such positions. *)
Fixpoint rank_loop (sorted_by_total : list nat) (idx : Z)
    (last_total : option float) (last_rank : Z)
    (results : list ResultDict) : list ResultDict :=
  match sorted_by_total with
  | [] => results
  | item :: rest =>
      let total := r_total (results !!! item) in
      let fresh :=
        match last_total with
        | None => true
        | Some lt => negb (PrimFloat.eqb total lt)
        end in
      let last_rank' := if fresh then idx else last_rank in
      let last_total' := if fresh then Some total else last_total in
      rank_loop rest (idx + 1) last_total' last_rank'
        (<[item := set_rank (results !!! item) (Some last_rank')]> results)
  end.

(** Line 74: later entries overwrite earlier ones with the same key. *)
Definition build_rank_map (sorted_by_total : list nat)
    (results : list ResultDict) : gmap addr (option Z) :=
  fold_left
    (λ m item, <[r_student (results !!! item) := r_rank (results !!! item)]> m)
    sorted_by_total ∅.

(** Lines 75-76. *)
Definition apply_rank_map (rank_map : gmap addr (option Z))
    (results : list ResultDict) : list ResultDict :=
  (λ item, set_rank item (default None (rank_map !! r_student item))) <$> results.

Definition assign_ranks (results : list ResultDict) : list ResultDict :=
  let sorted_by_total :=
    sorted_desc (λ i, r_total (results !!! i)) (seq 0 (length results)) in
  let results := rank_loop sorted_by_total 1 None 0 results in
  let rank_map := build_rank_map sorted_by_total results in
  apply_rank_map rank_map results.

Definition recalculate : M (list ResultDict) :=
  subjs ← read_subjects;
  let subj_count := Z.of_nat (length subjs) in
  studs ← read_students;
  results ← mapM (student_result subj_count) studs;
  mret (assign_ranks results).

End Engine.

(** ** gui.py: grading and ranking inside [MainWindow.recalculate_all] *)

Module Gui.

Definition grade_from_avg (avg : float) : string :=
  if PrimFloat.leb 90 avg then "A"
  else if PrimFloat.leb 80 avg then "B"
  else if PrimFloat.leb 70 avg then "C"
  else if PrimFloat.leb 60 avg then "D"
  else "F".

(** [{r_idx: rank + 1 for rank, (r_idx, _) in enumerate(totals_sorted)}] *)
Fixpoint build_rank_map (totals_sorted : list (nat * float)) (rank : Z)
    (m : gmap nat Z) : gmap nat Z :=
  match totals_sorted with
  | [] => m
  | (r_idx, _) :: rest => build_rank_map rest (rank + 1) (<[r_idx := (rank + 1)%Z]> m)
  end.

(** The ranking of [recalculate_all], from the list [totals] of
    [(row, total)] pairs to the value written in the rank column of each
    row; [None] stands for the empty string of [rank_map.get(r, "")]. *)
Definition recalculate_all_ranks (row_totals : list float) : list (option Z) :=
  let totals := imap (λ r total, (r, total)) row_totals in
  let totals_sorted := sorted_desc snd totals in
  let rank_map := build_rank_map totals_sorted 0 ∅ in
  (λ r, rank_map !! r) <$> seq 0 (length row_totals).

End Gui.

(** ** model.py: the operations that change the roster *)

Definition write_subjects (l : list string) : M unit := λ σ,
  (Ok (), {| book := {| subjects := l; students := students (book σ) |};
             objs := objs σ |}).

Definition with_scores (st : Student) (m : gmap string pyval) : Student :=
  {| name := name st; scores := m; phone := phone st; note := note st |}.

(** The dictionary [scores] of the object at [a], changed in place. *)
Definition update_scores (a : addr)
    (f : gmap string pyval → gmap string pyval) : M unit := λ σ,
  (Ok (), {| book := book σ;
             objs := <[a := with_scores (objs σ !!! a)
                               (f (scores (objs σ !!! a)))]> (objs σ) |}).

(** A new object: its address is none of those in use, in the store or in
    the students list. *)
Definition alloc (st : Student) : M addr := λ σ,
  let a := fresh (dom (objs σ) ∪ list_to_set (students (book σ))) in
  (Ok a, {| book := book σ; objs := <[a := st]> (objs σ) |}).

(** [for x in l: f(x)] *)
Fixpoint iterM {A} (f : A → M unit) (l : list A) : M unit :=
  match l with
  | [] => mret ()
  | x :: l' => _ ← f x; iterM f l'
  end.

(** [d.setdefault(k, v)] *)
Definition py_setdefault (k : string) (v : pyval)
    (d : gmap string pyval) : gmap string pyval :=
  match d !! k with
  | Some _ => d
  | None => <[k := v]> d
  end.

(** [l.remove(x)]: the first entry equal to [x] goes; ValueError when
    there is none. *)
Fixpoint py_remove (x : string) (l : list string) : outcome (list string) :=
  match l with
  | [] => Raise ValueError
  | y :: l' =>
      if bool_decide (y = x) then Ok l'
      else match py_remove x l' with
           | Ok k => Ok (y :: k)
           | Raise e => Raise e
           end
  end.

Section Roster.

Context {interp : Interp}.

(** [Student.set_score]: [self.scores[subject] = float(value)] *)
Definition set_score (self : addr) (subject : string) (value : pyval) : M unit :=
  x ← lift (py_float value);
  update_scores self (<[subject := PyFloat x]>).

(** [GradeBook.add_subject] *)
Definition add_subject (subj : string) : M unit :=
  subjs ← read_subjects;
  if bool_decide (subj ≠ "") && bool_decide (subj ∉ subjs) then
    _ ← write_subjects (subjs ++ [subj]);
    studs ← read_students;
    iterM (λ s, update_scores s (py_setdefault subj (PyFloat 0))) studs
  else mret ().

(** [GradeBook.remove_subject] *)
Definition remove_subject (subj : string) : M unit :=
  subjs ← read_subjects;
  if bool_decide (subj ∈ subjs) then
    subjs' ← lift (py_remove subj subjs);
    _ ← write_subjects subjs';
    studs ← read_students;
    iterM (λ s, update_scores s (delete subj)) studs
  else mret ().

(** [GradeBook.add_student] *)
Definition add_student (name : string) : M addr :=
  st ← alloc {| name := name; scores := ∅; phone := ""; note := "" |};
  subjs ← read_subjects;
  _ ← iterM (λ subj, update_scores st (py_setdefault subj (PyFloat 0))) subjs;
  studs ← read_students;
  _ ← write_students (studs ++ [st]);
  mret st.

End Roster.

(** ** Reference definitions used in the statements *)

Section Reference.

Context {interp : Interp}.

(** The value a subject contributes for a student: 0.0 when the subject is
    absent from the student's scores, and [float(v)] for a stored [v]
    (where [float(v)] fails, a case the statements exclude, 0.0 again). *)
Definition score_of (st : Student) (subj : string) : float :=
  match scores st !! subj with
  | None => 0%float
  | Some v => match py_float v with Ok x => x | Raise _ => 0%float end
  end.

Definition total_of (σ : Store) (a : addr) : float :=
  py_sum (score_of (objs σ !!! a) <$> subjects (book σ)).

Definition avg_of (σ : Store) (a : addr) : float :=
  let n := Z.of_nat (length (subjects (book σ))) in
  if bool_decide (n > 0)%Z then PrimFloat.div (total_of σ a) (float_of_len n)
  else 0%float.

(** The dictionary built for a student before ranks are assigned. *)
Definition result_of (σ : Store) (a : addr) : ResultDict :=
  {| r_student := a; r_total := total_of σ a; r_avg := avg_of σ a;
     r_grade := grade_from_avg (avg_of σ a); r_rank := None |}.

(** What is stored for a subject converts to a float: nothing, a float (as
    the annotation [Dict[str, float]] declares), an [int] within the range
    of the floats, or a string that Python reads as a number. *)
Definition converts (st : Student) (subj : string) : bool :=
  match scores st !! subj with
  | None => true
  | Some v => match py_float v with Ok _ => true | Raise _ => false end
  end.

(** A numeric roster: the scores of every listed student convert for
    every subject of the roster. *)
Definition numeric (σ : Store) : bool :=
  forallb (λ a, forallb (converts (objs σ !!! a)) (subjects (book σ)))
    (students (book σ)).

(** No student's total is NaN (NaN is not ordered, and Python's [sorted]
    is only specified on keys that are). *)
Definition ordered_totals (σ : Store) : bool :=
  forallb (λ a, negb (PrimFloat.is_nan (total_of σ a))) (students (book σ)).

End Reference.

(** Number of entries of [l] strictly greater than [t]. *)
Definition count_gt (t : float) (l : list float) : nat :=
  length (filter (λ t', PrimFloat.ltb t t' = true) l).

(** Comparison of two floats through their IEEE 754 specification. *)
Definition fcmp (x y : float) : option comparison :=
  SFcompare (Prim2SF x) (Prim2SF y).

Definition sf_nan (x : spec_float) : bool :=
  match x with S754_nan => true | _ => false end.

(** A computation that leaves the store as it found it, whether it returns
    or raises. *)
Definition stateless {A} (m : M A) : Prop := ∀ σ, snd (m σ) = σ.

(** The ranks that the loop of lines 64-70 hands out, in the order of
    [sorted_by_total], as a function of the totals met in that order. *)
Fixpoint rank_seq (totals : list float) (idx : Z)
    (last_total : option float) (last_rank : Z) : list Z :=
  match totals with
  | [] => []
  | total :: rest =>
      let fresh :=
        match last_total with
        | None => true
        | Some lt => negb (PrimFloat.eqb total lt)
        end in
      let last_rank' := if fresh then idx else last_rank in
      let last_total' := if fresh then Some total else last_total in
      last_rank' :: rank_seq rest (idx + 1) last_total' last_rank'
  end.

(** Two dictionaries that agree on everything but the rank. *)
Definition same_fields (d d' : ResultDict) : Prop :=
  ∀ rk, set_rank d rk = set_rank d' rk.

(** Not increasing: no earlier key is below a later one. *)
Definition not_below (x y : float) : Prop := PrimFloat.ltb x y = false.

Definition descending (l : list float) : Prop := StronglySorted not_below l.

Definition no_nan (l : list float) : Prop :=
  Forall (λ t, PrimFloat.is_nan t = false) l.

(** ** The rosters that the methods of model.py build *)

(** [GradeBook()], and no student object yet. *)
Definition empty_store : Store :=
  {| book := {| subjects := []; students := [] |}; objs := ∅ |}.

(** Every subject is listed once, and none is the empty string. *)
Definition unique_subjects (σ : Store) : Prop :=
  NoDup (subjects (book σ)) ∧ "" ∉ subjects (book σ).

(** Every listed student is an object of the store. *)
Definition no_dangling (σ : Store) : Prop :=
  ∀ a, a ∈ students (book σ) → is_Some (objs σ !! a).

(** Every listed student has a score stored for every subject. *)
Definition complete (σ : Store) : Prop :=
  ∀ a subj, a ∈ students (book σ) → subj ∈ subjects (book σ) →
    is_Some (scores (objs σ !!! a) !! subj).

(** Every stored score is a float. *)
Definition float_scores (σ : Store) : Prop :=
  ∀ a st subj v, objs σ !! a = Some st → scores st !! subj = Some v →
    ∃ x, v = PyFloat x.

Definition well_formed (σ : Store) : Prop :=
  unique_subjects σ ∧ no_dangling σ ∧ complete σ ∧ float_scores σ.

(** A call of one of the methods of [GradeBook] and [Student]. *)
Inductive call : Type :=
  | AddSubject (subj : string)
  | RemoveSubject (subj : string)
  | AddStudent (name : string)
  | RemoveStudent (index : Z)
  | SetScore (self : addr) (subject : string) (value : pyval).

Section Calls.

Context {interp : Interp}.

(** [set_score] is a method of an object: there is no call on an address
    without one. *)
Definition run_call (c : call) : M unit :=
  match c with
  | AddSubject subj => add_subject subj
  | RemoveSubject subj => remove_subject subj
  | AddStudent name => _ ← add_student name; mret ()
  | RemoveStudent index => remove_student index
  | SetScore self subject value =>
      λ σ, if bool_decide (is_Some (objs σ !! self))
           then set_score self subject value σ
           else (Ok (), σ)
  end.

(** A sequence of calls; a caller goes on after an exception. *)
Fixpoint run_calls (cs : list call) (σ : Store) : Store :=
  match cs with
  | [] => σ
  | c :: cs' => run_calls cs' (snd (run_call c σ))
  end.

End Calls.

(** ** Example rosters *)

(** An interpreter that rejects every string, as Python does ["abc"]. *)
Definition rejecting : Interp := {| str_to_float := λ _, None |}.

Definition student_scoring (v : pyval) : Student :=
  {| name := "s"; scores := {["math" := v]}; phone := ""; note := "" |}.

(** Three students with totals 100, 100 and 90 in one subject. *)
Definition roster_tie : Store :=
  {| book := {| subjects := ["math"]; students := [0; 1; 2] |};
     objs := <[0 := student_scoring (PyFloat 100)]>
             (<[1 := student_scoring (PyFloat 100)]>
             (<[2 := student_scoring (PyFloat 90)]> ∅)) |}.

(** Two subjects, one of them absent from the scores, and the student at
    address 1 listed twice. *)
Definition roster_alias : Store :=
  {| book := {| subjects := ["math"; "art"]; students := [0; 1; 2; 1] |};
     objs := <[0 := student_scoring (PyFloat 80)]>
             (<[1 := student_scoring (PyFloat 85.5)]>
             (<[2 := student_scoring (PyFloat 90)]> ∅)) |}.

(** One student whose score for the only subject is [None]. *)
Definition roster_none : Store :=
  {| book := {| subjects := ["math"]; students := [0] |};
     objs := <[0 := student_scoring PyNone]> ∅ |}.

(** One student whose score for the only subject is the string ["abc"]. *)
Definition roster_abc : Store :=
  {| book := {| subjects := ["math"]; students := [0] |};
     objs := <[0 := student_scoring (PyStr "abc")]> ∅ |}.

(** Students but no subjects. *)
Definition roster_no_subjects : Store :=
  {| book := {| subjects := []; students := [0; 1] |};
     objs := <[0 := student_scoring (PyFloat 70)]>
             (<[1 := student_scoring PyNone]> ∅) |}.

(** Subjects but no students. *)
Definition roster_no_students : Store :=
  {| book := {| subjects := ["math"; "art"]; students := [] |}; objs := ∅ |}.

(** Three students with totals 80, 85.5 and 90 in one subject. *)
Definition roster_distinct : Store :=
  {| book := {| subjects := ["math"]; students := [0; 1; 2] |};
     objs := <[0 := student_scoring (PyFloat 80)]>
             (<[1 := student_scoring (PyFloat 85.5)]>
             (<[2 := student_scoring (PyFloat 90)]> ∅)) |}.

(** The same students, listed from the last to the first. *)
Definition roster_distinct_reversed : Store :=
  {| book := {| subjects := ["math"]; students := [2; 1; 0] |};
     objs := objs roster_distinct |}.


(** Three subjects and two students: the first has the floats 40.0, 30.0
    and 20.0 stored, the second the [int] 51 for math, nothing for art and
    9.0 for gym. *)
Definition roster_three_subjects : Store :=
  {| book := {| subjects := ["math"; "art"; "gym"]; students := [0; 1] |};
     objs := <[0 := {| name := "a";
                       scores := <["math" := PyFloat 40]>
                                 (<["art" := PyFloat 30]>
                                 (<["gym" := PyFloat 20]> ∅));
                       phone := ""; note := "" |}]>
             (<[1 := {| name := "b";
                        scores := <["math" := PyInt 51]>
                                  (<["gym" := PyFloat 9]> ∅);
                        phone := ""; note := "" |}]> ∅) |}.

(** Two students, the second with [None] stored for the only subject. *)
Definition roster_one_none : Store :=
  {| book := {| subjects := ["math"]; students := [0; 1] |};
     objs := <[0 := student_scoring (PyFloat 70)]>
             (<[1 := student_scoring PyNone]> ∅) |}.

(** * Properties *)

(** ** The order of binary64 values *)

Section FloatOrder.

Local Ltac cmp_cases :=
  repeat match goal with
  | H : context [Pos.compare_cont Eq ?a ?b] |- _ =>
      change (Pos.compare_cont Eq a b) with (Pos.compare a b) in H
  | |- context [Pos.compare_cont Eq ?a ?b] =>
      change (Pos.compare_cont Eq a b) with (Pos.compare a b)
  end;
  repeat match goal with
  | H : context [Z.compare ?a ?b] |- _ =>
      destruct (Z.compare_spec a b); simpl in H
  | |- context [Z.compare ?a ?b] =>
      destruct (Z.compare_spec a b); simpl
  | H : context [Pos.compare ?a ?b] |- _ =>
      destruct (Pos.compare_spec a b); simpl in H
  | |- context [Pos.compare ?a ?b] =>
      destruct (Pos.compare_spec a b); simpl
  end.

Lemma SFcompare_antisym x y c :
  SFcompare x y = Some c → SFcompare y x = Some (CompOpp c).
Proof.
  destruct x as [sx|sx| |sx mx ex], y as [sy|sy| |sy my ey]; simpl;
    try destruct sx; try destruct sy; simpl; intros Hc;
    simplify_eq; try reflexivity; cmp_cases; simplify_eq; simpl;
    try reflexivity; try lia.
Qed.

Lemma SFcompare_refl x : sf_nan x = false → SFcompare x x = Some Eq.
Proof.
  destruct x as [sx|sx| |sx mx ex]; simpl; try destruct sx; intros; try done;
    rewrite Z.compare_refl;
    change (Pos.compare_cont Eq mx mx) with (Pos.compare mx mx);
    by rewrite Pos.compare_refl.
Qed.

Lemma SFcompare_total x y :
  sf_nan x = false → sf_nan y = false → is_Some (SFcompare x y).
Proof.
  destruct x as [sx|sx| |sx mx ex], y as [sy|sy| |sy my ey]; simpl;
    intros; try done; eauto.
Qed.

Lemma SFcompare_Some_l x y c : SFcompare x y = Some c → sf_nan x = false.
Proof. destruct x, y; simpl; intros; done. Qed.

Lemma SFcompare_Some_r x y c : SFcompare x y = Some c → sf_nan y = false.
Proof. destruct x, y; simpl; intros; done. Qed.

Lemma SFcompare_trans x y z c1 c2 :
  SFcompare x y = Some c1 → SFcompare y z = Some c2 → c1 ≠ Gt → c2 ≠ Gt →
  SFcompare x z = Some (match c1 with Eq => c2 | _ => Lt end).
Proof.
  destruct x as [sx|sx| |sx mx ex], y as [sy|sy| |sy my ey],
    z as [sz|sz| |sz mz ez]; simpl;
    try destruct sx; try destruct sy; try destruct sz; simpl;
    intros H1 H2 N1 N2;
    simplify_eq; try done; cmp_cases; simplify_eq; simpl; try done; try lia.
Qed.

Lemma ltb_fcmp x y : PrimFloat.ltb x y = true ↔ fcmp x y = Some Lt.
Proof.
  rewrite FloatAxioms.ltb_spec. unfold SFltb, fcmp.
  destruct (SFcompare _ _) as [[]|]; split; done.
Qed.

Lemma eqb_fcmp x y : PrimFloat.eqb x y = true ↔ fcmp x y = Some Eq.
Proof.
  rewrite FloatAxioms.eqb_spec. unfold SFeqb, fcmp.
  destruct (SFcompare _ _) as [[]|]; split; done.
Qed.

Lemma leb_fcmp x y :
  PrimFloat.leb x y = true ↔ fcmp x y = Some Lt ∨ fcmp x y = Some Eq.
Proof.
  rewrite FloatAxioms.leb_spec. unfold SFleb, fcmp.
  destruct (SFcompare _ _) as [[]|];
    (split; [intros; first [done | by left | by right] | intros [?|?]; done]).
Qed.

Lemma is_nan_fcmp x : PrimFloat.is_nan x = false ↔ sf_nan (Prim2SF x) = false.
Proof.
  unfold PrimFloat.is_nan. rewrite negb_false_iff, eqb_fcmp. unfold fcmp. split.
  - apply SFcompare_Some_l.
  - apply SFcompare_refl.
Qed.

Lemma fcmp_total x y :
  PrimFloat.is_nan x = false → PrimFloat.is_nan y = false →
  ∃ c, fcmp x y = Some c.
Proof.
  rewrite !is_nan_fcmp. intros Hx Hy.
  destruct (SFcompare_total _ _ Hx Hy) as [c Hc]. by exists c.
Qed.

Lemma fcmp_antisym x y c : fcmp x y = Some c → fcmp y x = Some (CompOpp c).
Proof. apply SFcompare_antisym. Qed.

Lemma ltb_irrefl x : PrimFloat.ltb x x = false.
Proof.
  apply not_true_is_false. rewrite ltb_fcmp. intros H.
  pose proof (fcmp_antisym _ _ _ H) as H'. simpl in H'. congruence.
Qed.

Lemma ltb_asym x y : PrimFloat.ltb x y = true → PrimFloat.ltb y x = false.
Proof.
  rewrite ltb_fcmp. intros H. apply not_true_is_false. rewrite ltb_fcmp.
  apply fcmp_antisym in H. simpl in H. congruence.
Qed.

Lemma ltb_not_leb x y : PrimFloat.ltb x y = true → PrimFloat.leb y x = false.
Proof.
  rewrite ltb_fcmp. intros H. apply not_true_is_false. rewrite leb_fcmp.
  apply fcmp_antisym in H. simpl in H. intros [?|?]; congruence.
Qed.

(** Two ordered values that are not equal and not increasing are
    decreasing. *)
Lemma ltb_connex x y :
  PrimFloat.is_nan x = false → PrimFloat.is_nan y = false →
  PrimFloat.eqb x y = false → PrimFloat.ltb x y = false →
  PrimFloat.ltb y x = true.
Proof.
  intros Hx Hy He Hl. destruct (fcmp_total x y Hx Hy) as [c Hc].
  apply ltb_fcmp. destruct c.
  - apply eqb_fcmp in Hc. congruence.
  - apply ltb_fcmp in Hc. congruence.
  - apply fcmp_antisym in Hc. exact Hc.
Qed.

(** From [x < y] and [z >= y] follows [x < z]. *)
Lemma ltb_ge_trans x y z :
  PrimFloat.is_nan z = false →
  PrimFloat.ltb x y = true → PrimFloat.ltb z y = false →
  PrimFloat.ltb x z = true.
Proof.
  intros Hz Hxy Hzy. pose proof Hxy as Hxy'. apply ltb_fcmp in Hxy'.
  assert (Hy : PrimFloat.is_nan y = false).
  { apply is_nan_fcmp. eapply SFcompare_Some_r, Hxy'. }
  destruct (fcmp_total y z Hy Hz) as [c Hc]. apply ltb_fcmp.
  destruct c.
  - apply (SFcompare_trans _ _ _ _ _ Hxy' Hc); done.
  - apply (SFcompare_trans _ _ _ _ _ Hxy' Hc); done.
  - apply fcmp_antisym, ltb_fcmp in Hc. simpl in Hc. congruence.
Qed.

Lemma geb_trans x y z :
  PrimFloat.is_nan y = false →
  PrimFloat.ltb x y = false → PrimFloat.ltb y z = false →
  PrimFloat.ltb x z = false.
Proof.
  intros Hy Hxy Hyz. apply not_true_is_false. intros Hxz.
  destruct (ltb_fcmp x z) as [Hc _]. specialize (Hc Hxz).
  assert (Hx : PrimFloat.is_nan x = false).
  { apply is_nan_fcmp. eapply SFcompare_Some_l, Hc. }
  assert (Hz : PrimFloat.is_nan z = false).
  { apply is_nan_fcmp. eapply SFcompare_Some_r, Hc. }
  assert (PrimFloat.ltb x y = true); [|congruence].
  eapply ltb_ge_trans; eauto.
Qed.

Lemma eqb_ltb_l x y t :
  PrimFloat.eqb x y = true → PrimFloat.ltb x t = PrimFloat.ltb y t.
Proof.
  rewrite eqb_fcmp. intros Hxy.
  pose proof (fcmp_antisym _ _ _ Hxy) as Hyx. simpl in Hyx.
  apply eq_true_iff_eq. rewrite !ltb_fcmp. split; intros H.
  - apply (SFcompare_trans _ _ _ _ _ Hyx H); done.
  - apply (SFcompare_trans _ _ _ _ _ Hxy H); done.
Qed.



Lemma eqb_not_ltb x y : PrimFloat.eqb x y = true → PrimFloat.ltb x y = false.
Proof.
  rewrite eqb_fcmp. intros H. apply not_true_is_false. rewrite ltb_fcmp.
  congruence.
Qed.

End FloatOrder.

(** ** The monad, and the loop over the students *)

Section Monad.

Lemma bind_Ok {A B} (m : M A) (f : A → M B) σ a σ' :
  m σ = (Ok a, σ') → (m ≫= f) σ = f a σ'.
Proof. unfold mbind, M_bind. by intros ->. Qed.

Lemma bind_Raise {A B} (m : M A) (f : A → M B) σ e σ' :
  m σ = (Raise e, σ') → (m ≫= f) σ = (Raise e, σ').
Proof. unfold mbind, M_bind. by intros ->. Qed.

Lemma stateless_ret {A} (a : A) : stateless (mret a).
Proof. by intros σ. Qed.

Lemma stateless_lift {A} (o : outcome A) : stateless (lift o).
Proof. by intros σ. Qed.

Lemma stateless_deref a : stateless (deref a).
Proof. intros σ. reflexivity. Qed.

Lemma stateless_read_subjects : stateless read_subjects.
Proof. intros σ. reflexivity. Qed.

Lemma stateless_read_students : stateless read_students.
Proof. intros σ. reflexivity. Qed.

Lemma stateless_bind {A B} (m : M A) (f : A → M B) :
  stateless m → (∀ a, stateless (f a)) → stateless (m ≫= f).
Proof.
  intros Hm Hf σ. unfold mbind, M_bind. specialize (Hm σ).
  destruct (m σ) as [[a|e] σ']; simpl in Hm; subst σ'; [apply Hf | done].
Qed.

Lemma stateless_mapM {A B} (f : A → M B) l :
  (∀ a, stateless (f a)) → stateless (mapM f l).
Proof.
  intros Hf. induction l as [|x l IH]; simpl.
  - apply stateless_ret.
  - apply stateless_bind; [apply Hf | intros y].
    apply stateless_bind; [apply IH | intros k]. apply stateless_ret.
Qed.

Lemma mapM_Ok {A B} (f : A → M B) (g : A → B) l σ :
  (∀ a, a ∈ l → f a σ = (Ok (g a), σ)) → mapM f l σ = (Ok (g <$> l), σ).
Proof.
  induction l as [|x l IH]; intros Hf; simpl; [done|].
  erewrite bind_Ok; [|apply Hf; left].
  erewrite bind_Ok; [done|]. apply IH. intros a Ha. apply Hf. by right.
Qed.

Lemma mapM_Ok_inv {A B} (f : A → M B) l σ k σ' :
  mapM f l σ = (Ok k, σ') → length k = length l.
Proof.
  revert σ k σ'. induction l as [|x l IH]; intros σ k σ'; simpl.
  - unfold mret, M_ret. intros [= <- _]. done.
  - unfold mbind, M_bind. destruct (f x σ) as [[y|e] σ1]; [|by intros [=]].
    destruct (mapM f l σ1) as [[k'|e] σ2] eqn:Hk; [|by intros [=]].
    unfold mret, M_ret. intros [= <- _]. simpl. f_equal. by eapply IH.
Qed.

(** A loop whose body only reads the store is a loop in the exception
    monad. *)
Lemma mapM_lift {A B} (f : A → M B) (o : A → outcome B) l σ :
  (∀ x, x ∈ l → f x σ = (o x, σ)) → mapM f l σ = (mapM o l, σ).
Proof.
  induction l as [|x l IH]; intros Hf; [done|].
  assert (Hx : f x σ = (o x, σ)) by (apply Hf; by left).
  assert (Hl : mapM f l σ = (mapM o l, σ)).
  { apply IH. intros. apply Hf. by right. }
  change (mapM f (x :: l)) with (y ← f x; k ← mapM f l; mret (y :: k)).
  change (mapM o (x :: l)) with (y ← o x; k ← mapM o l; mret (y :: k)).
  destruct (o x) as [y|e].
  - rewrite (bind_Ok _ _ _ _ _ Hx). destruct (mapM o l) as [k|e].
    + by rewrite (bind_Ok _ _ _ _ _ Hl).
    + by rewrite (bind_Raise _ _ _ _ _ Hl).
  - by rewrite (bind_Raise _ _ _ _ _ Hx).
Qed.

Lemma mapM_outcome_cons {A B} (o : A → outcome B) x l :
  mapM o (x :: l) =
    match o x with
    | Ok y => match mapM o l with Ok k => Ok (y :: k) | Raise e => Raise e end
    | Raise e => Raise e
    end.
Proof. reflexivity. Qed.

Lemma mapM_outcome_Raise_inv {A B} (o : A → outcome B) l e :
  mapM o l = Raise e → ∃ x, x ∈ l ∧ o x = Raise e.
Proof.
  induction l as [|x l IH]; [done|]. rewrite mapM_outcome_cons.
  destruct (o x) as [y|e'] eqn:Hx.
  - destruct (mapM o l) as [k|e'] eqn:Hl; [done|].
    intros [= ->]. destruct (IH eq_refl) as (x' & Hin & Hx').
    exists x'. split; [by right|done].
  - intros [= ->]. exists x. split; [by left|done].
Qed.

Lemma mapM_outcome_Raise {A B} (o : A → outcome B) l x e :
  x ∈ l → o x = Raise e → ∃ e', mapM o l = Raise e'.
Proof.
  induction l as [|y l IH]; intros Hin Hx; [by apply elem_of_nil in Hin|].
  rewrite mapM_outcome_cons. destruct (o y) as [b|e'] eqn:Hy.
  - apply elem_of_cons in Hin as [->|Hin]; [congruence|].
    destruct (IH Hin Hx) as [e' ->]. by exists e'.
  - by exists e'.
Qed.

End Monad.

Section Students.

Context {interp : Interp}.

Lemma stateless_get_score a subj : stateless (get_score a subj).
Proof.
  apply stateless_bind; [apply stateless_deref | intros st].
  apply stateless_lift.
Qed.

Lemma stateless_subject_value a subj : stateless (subject_value a subj).
Proof.
  apply stateless_bind; [apply stateless_get_score | intros v].
  apply stateless_lift.
Qed.

Lemma stateless_student_result n a : stateless (student_result n a).
Proof.
  apply stateless_bind; [apply stateless_read_subjects | intros subjs].
  apply stateless_bind; [|intros; apply stateless_ret].
  apply stateless_mapM, stateless_subject_value.
Qed.

Lemma stateless_recalculate : stateless recalculate.
Proof.
  apply stateless_bind; [apply stateless_read_subjects | intros subjs].
  apply stateless_bind; [apply stateless_read_students | intros studs].
  apply stateless_bind; [|intros; apply stateless_ret].
  apply stateless_mapM, stateless_student_result.
Qed.

(** What [subject_value] does in every case: the [try] has nothing left to
    catch. *)
Lemma subject_value_eq a subj σ :
  subject_value a subj σ =
    (py_float (default (PyFloat 0) (scores (objs σ !!! a) !! subj)), σ).
Proof.
  unfold subject_value, get_score, deref, lift, mbind, M_bind. simpl.
  by destruct (py_float _).
Qed.

Lemma subject_value_float a subj σ :
  converts (objs σ !!! a) subj = true →
  subject_value a subj σ = (Ok (score_of (objs σ !!! a) subj), σ).
Proof.
  rewrite subject_value_eq. unfold converts, score_of.
  destruct (scores _ !! subj) as [v|]; simpl; [|done].
  by destruct (py_float v).
Qed.

Lemma student_result_numeric a σ :
  forallb (converts (objs σ !!! a)) (subjects (book σ)) = true →
  student_result (Z.of_nat (length (subjects (book σ)))) a σ
    = (Ok (result_of σ a), σ).
Proof.
  intros Hn. unfold student_result.
  erewrite bind_Ok; [|reflexivity].
  erewrite bind_Ok; [reflexivity|].
  apply mapM_Ok. intros subj Hsubj. apply subject_value_float.
  rewrite forallb_forall in Hn. by apply Hn, list_elem_of_In.
Qed.

Lemma recalculate_numeric σ :
  numeric σ = true →
  recalculate σ = (Ok (assign_ranks (result_of σ <$> students (book σ))), σ).
Proof.
  intros Hn. unfold recalculate.
  erewrite bind_Ok; [|reflexivity].
  erewrite bind_Ok; [|reflexivity].
  erewrite bind_Ok; [reflexivity|].
  apply mapM_Ok. intros a Ha. apply student_result_numeric.
  unfold numeric in Hn. rewrite forallb_forall in Hn.
  by apply (Hn a), list_elem_of_In.
Qed.

Lemma float_of_int_Raise z e : float_of_int z = Raise e → e = OverflowError.
Proof.
  unfold float_of_int.
  by destruct (binary_normalize _ _ _ _ _); intros [= <-].
Qed.

Lemma py_float_Raise v e :
  py_float v = Raise e →
  e = TypeError ∨ e = ValueError ∨ e = OverflowError.
Proof.
  destruct v as [x|z|str|]; simpl; [done| | |intros [= <-]; by left].
  - intros He%float_of_int_Raise. by right; right.
  - destruct (str_to_float str); [done|]. intros [= <-]. by right; left.
Qed.

(** [student_result] as a computation in the exception monad. *)
Lemma student_result_eq n a σ :
  student_result n a σ = (fst (student_result n a σ), σ).
Proof.
  rewrite <-(stateless_student_result n a σ) at 3. by destruct (student_result _ _ _).
Qed.

Lemma student_result_outcome n a σ :
  fst (student_result n a σ) =
    match mapM (λ subj, py_float (default (PyFloat 0)
                                    (scores (objs σ !!! a) !! subj)))
            (subjects (book σ)) with
    | Ok values =>
        let avg := if bool_decide (n > 0)%Z
                   then PrimFloat.div (py_sum values) (float_of_len n)
                   else 0%float in
        Ok {| r_student := a; r_total := py_sum values; r_avg := avg;
              r_grade := grade_from_avg avg; r_rank := None |}
    | Raise e => Raise e
    end.
Proof.
  unfold student_result, read_subjects. unfold mbind at 1, M_bind.
  unfold mbind at 1, M_bind.
  rewrite (mapM_lift _ (λ subj, py_float (default (PyFloat 0)
                                  (scores (objs σ !!! a) !! subj)))).
  - by destruct (mapM _ _).
  - intros subj _. apply subject_value_eq.
Qed.

Lemma student_result_Raise n a σ e :
  fst (student_result n a σ) = Raise e →
  e = TypeError ∨ e = ValueError ∨ e = OverflowError.
Proof.
  rewrite student_result_outcome.
  destruct (mapM _ _) as [values|e'] eqn:Hm; [done|]. intros [= ->].
  apply mapM_outcome_Raise_inv in Hm as (subj & _ & Hsubj).
  by eapply py_float_Raise.
Qed.

Lemma student_result_not_numeric n a σ :
  forallb (converts (objs σ !!! a)) (subjects (book σ)) = false →
  ∃ e, fst (student_result n a σ) = Raise e.
Proof.
  intros Hn. rewrite student_result_outcome.
  assert (∃ subj, subj ∈ subjects (book σ) ∧
                  converts (objs σ !!! a) subj = false)
    as (subj & Hin & Hsubj).
  { induction (subjects (book σ)) as [|s l IH]; [done|].
    simpl in Hn. apply andb_false_iff in Hn as [Hs|Hl].
    - exists s. split; [by left|done].
    - destruct (IH Hl) as (subj & ? & ?). exists subj. split; [by right|done]. }
  unfold converts in Hsubj.
  destruct (scores (objs σ !!! a) !! subj) as [v|] eqn:Hv; [|done].
  destruct (py_float v) as [x|e] eqn:He; [done|].
  destruct (mapM_outcome_Raise
    (λ subj, py_float (default (PyFloat 0) (scores (objs σ !!! a) !! subj)))
    (subjects (book σ)) subj e Hin) as [e' ->].
  - by rewrite Hv.
  - by exists e'.
Qed.

(** On a roster that is not numeric, [recalculate] raises the exception of
    the first conversion that fails. *)
Lemma recalculate_not_numeric σ :
  numeric σ = false →
  ∃ e, fst (recalculate σ) = Raise e ∧
       (e = TypeError ∨ e = ValueError ∨ e = OverflowError).
Proof.
  intros Hn. unfold recalculate, read_subjects, read_students.
  unfold mbind at 1, M_bind. unfold mbind at 1, M_bind.
  unfold mbind at 1, M_bind.
  set (n := Z.of_nat (length (subjects (book σ)))).
  rewrite (mapM_lift _ (λ a, fst (student_result n a σ)))
    by (intros; apply student_result_eq).
  assert (∃ a, a ∈ students (book σ) ∧
               forallb (converts (objs σ !!! a)) (subjects (book σ)) = false)
    as (a & Hin & Ha).
  { unfold numeric in Hn. induction (students (book σ)) as [|b l IH]; [done|].
    simpl in Hn. apply andb_false_iff in Hn as [Hb|Hl].
    - exists b. split; [by left|done].
    - destruct (IH Hl) as (a & ? & ?). exists a. split; [by right|done]. }
  destruct (student_result_not_numeric n a σ Ha) as [e He].
  destruct (mapM_outcome_Raise (λ a, fst (student_result n a σ)) _ a e
              Hin He) as [e' He'].
  rewrite He'. exists e'. split; [done|].
  apply mapM_outcome_Raise_inv in He' as (a' & _ & Ha').
  by eapply student_result_Raise.
Qed.

(** [recalculate] returns exactly on the numeric rosters. *)
Lemma recalculate_returns_iff σ :
  numeric σ = true ↔ ∃ rs, fst (recalculate σ) = Ok rs.
Proof.
  split.
  - intros Hn. rewrite (recalculate_numeric σ Hn). by eexists.
  - intros [rs Hrs]. destruct (numeric σ) eqn:Hn; [done|].
    destruct (recalculate_not_numeric σ Hn) as (e & He & _). congruence.
Qed.

End Students.

(** ** Sorting *)

Section Sorting.

Context {A : Type} (key : A → float).

Lemma insert_desc_perm x l : insert_desc key x l ≡ₚ x :: l.
Proof.
  induction l as [|y l IH]; simpl; [done|].
  destruct (PrimFloat.ltb _ _); [|done].
  rewrite IH. apply Permutation_swap.
Qed.

Lemma sorted_desc_perm l : sorted_desc key l ≡ₚ l.
Proof.
  induction l as [|x l IH]; simpl; [done|].
  rewrite insert_desc_perm. by f_equiv.
Qed.

Lemma sorted_desc_length l : length (sorted_desc key l) = length l.
Proof. apply Permutation_length, sorted_desc_perm. Qed.

Lemma insert_desc_descending x l :
  PrimFloat.is_nan (key x) = false → no_nan (key <$> l) →
  descending (key <$> l) → descending (key <$> insert_desc key x l).
Proof.
  intros Hx. induction l as [|y l IH]; simpl; intros Hn Hs.
  - repeat constructor.
  - apply Forall_cons in Hn as [Hy Hn].
    apply StronglySorted_inv in Hs as [Hs Hys].
    destruct (PrimFloat.ltb (key x) (key y)) eqn:Hxy; simpl.
    + constructor; [by apply IH|].
      rewrite insert_desc_perm. simpl. constructor; [|done].
      by apply ltb_asym.
    + constructor; [by constructor|].
      constructor; [done|].
      eapply Forall_impl; [exact Hys|]. intros z Hz.
      by apply (geb_trans _ (key y)).
Qed.

Lemma sorted_desc_descending l :
  no_nan (key <$> l) → descending (key <$> sorted_desc key l).
Proof.
  induction l as [|x l IH]; simpl; intros Hn; [constructor|].
  apply Forall_cons in Hn as [Hx Hn].
  apply insert_desc_descending; [done| |by apply IH].
  unfold no_nan. by rewrite sorted_desc_perm.
Qed.

End Sorting.

(** ** Counting the totals above a given one *)

Section Counting.

Lemma count_gt_nil t : count_gt t [] = 0.
Proof. done. Qed.

Lemma count_gt_app t l1 l2 :
  count_gt t (l1 ++ l2) = count_gt t l1 + count_gt t l2.
Proof. unfold count_gt. by rewrite filter_app, length_app. Qed.

Lemma count_gt_cons t x l :
  count_gt t (x :: l) = (if PrimFloat.ltb t x then 1 else 0) + count_gt t l.
Proof.
  unfold count_gt. rewrite filter_cons.
  destruct (PrimFloat.ltb t x); by case_decide.
Qed.

Lemma count_gt_none t l :
  Forall (λ x, PrimFloat.ltb t x = false) l → count_gt t l = 0.
Proof.
  induction 1 as [|x l Hx _ IH]; [done|].
  by rewrite count_gt_cons, Hx, IH.
Qed.

Lemma count_gt_all t l :
  Forall (λ x, PrimFloat.ltb t x = true) l → count_gt t l = length l.
Proof.
  induction 1 as [|x l Hx _ IH]; [done|].
  by rewrite count_gt_cons, Hx, IH.
Qed.

Lemma count_gt_eqb x y l :
  PrimFloat.eqb x y = true → count_gt x l = count_gt y l.
Proof.
  intros Hxy. induction l as [|z l IH]; [done|].
  by rewrite !count_gt_cons, IH, (eqb_ltb_l x y z).
Qed.

Lemma count_gt_perm t l l' : l ≡ₚ l' → count_gt t l = count_gt t l'.
Proof. unfold count_gt. by intros ->. Qed.

Lemma count_gt_le t l : count_gt t l ≤ length l.
Proof. apply length_filter. Qed.

End Counting.

(** ** The ranks handed out in sorted order *)

Section RankSeq.

Lemma rank_seq_length l idx lt lr : length (rank_seq l idx lt lr) = length l.
Proof.
  revert idx lt lr. induction l as [|x l IH]; intros; simpl; [done|].
  by rewrite IH.
Qed.

(** Every rank handed out is a position already reached. *)
Lemma rank_seq_range l idx lt lr ρ :
  ρ ∈ rank_seq l idx lt lr →
  (lt ≠ None ∧ ρ = lr) ∨ (idx ≤ ρ < idx + Z.of_nat (length l))%Z.
Proof.
  revert idx lt lr. induction l as [|x l IH]; intros idx lt lr; simpl.
  - by intros ?%elem_of_nil.
  - intros [->|Hρ]%elem_of_cons.
    + destruct lt as [t0|]; [destruct (negb _)|]; [right; lia|by left|right; lia].
    + apply IH in Hρ as [[_ ->]|Hρ]; [|right; lia].
      destruct lt as [t0|]; [destruct (negb _)|]; [right; lia|by left|right; lia].
Qed.

Lemma rank_seq_bounds l ρ :
  ρ ∈ rank_seq l 1 None 0 → (1 ≤ ρ ≤ Z.of_nat (length l))%Z.
Proof. intros [[? _]|?]%rank_seq_range; [done|lia]. Qed.

(** On totals in descending order, the rank of a total is one more than
    the number of totals above it. [P] is the part already visited. *)
Lemma rank_seq_counts S : ∀ P idx lt lr,
  no_nan (P ++ S) → descending (P ++ S) →
  idx = (1 + Z.of_nat (length P))%Z →
  match lt with
  | None => P = []
  | Some t0 =>
      t0 ∈ P ∧ Forall (λ p, PrimFloat.ltb p t0 = false) P ∧
      lr = (1 + Z.of_nat (count_gt t0 P))%Z
  end →
  ∀ k t, S !! k = Some t →
    rank_seq S idx lt lr !! k = Some (1 + Z.of_nat (count_gt t (P ++ S)))%Z.
Proof.
  induction S as [|x S IH]; intros P idx lt lr Hn Hs Hidx Hlt k t Hk;
    [done|].
  assert (Hx : PrimFloat.is_nan x = false).
  { unfold no_nan in Hn. rewrite Forall_app, Forall_cons in Hn. tauto. }
  assert (HP : Forall (λ p, PrimFloat.ltb p x = false) P).
  { apply Forall_forall. intros p Hp.
    eapply (StronglySorted_app_1_elem_of _ _ _ p x Hs); [done|by left]. }
  assert (HS : Forall (λ s, PrimFloat.ltb x s = false) S).
  { apply StronglySorted_app_1_r, StronglySorted_inv in Hs. tauto. }
  assert (HnP : Forall (λ p, PrimFloat.is_nan p = false) P).
  { unfold no_nan in Hn. rewrite Forall_app in Hn. tauto. }
  (* the state after visiting [x] *)
  set (fresh := match lt with
                | None => true
                | Some t0 => negb (PrimFloat.eqb x t0)
                end).
  assert (Hhead : (if fresh then idx else lr)
                  = (1 + Z.of_nat (count_gt x (P ++ x :: S)))%Z).
  { rewrite count_gt_app, count_gt_cons, ltb_irrefl, (count_gt_none x S HS).
    unfold fresh. destruct lt as [t0|].
    - destruct Hlt as (Ht0 & Hmin & ->).
      destruct (PrimFloat.eqb x t0) eqn:He; simpl.
      + rewrite (count_gt_eqb x t0 P He). lia.
      + rewrite count_gt_all; [lia|].
        rewrite Forall_forall in HP, Hmin, HnP |- *. intros p Hp.
        apply (ltb_ge_trans x t0 p); [by apply HnP| |by apply Hmin].
        apply ltb_connex; [by apply HnP|done| |by apply HP].
        destruct (PrimFloat.eqb t0 x) eqn:He'; [|done].
        apply eqb_fcmp, fcmp_antisym, eqb_fcmp in He'. congruence.
    - subst P. simpl in *. lia. }
  destruct k as [|k]; simpl in Hk |- *.
  { injection Hk as <-. fold fresh. by rewrite Hhead. }
  fold fresh.
  replace (P ++ x :: S) with ((P ++ [x]) ++ S) by by rewrite <-app_assoc.
  apply IH; [by rewrite <-app_assoc|by rewrite <-app_assoc| | |done].
  - rewrite length_app. simpl. lia.
  - unfold fresh. destruct lt as [t0|].
    + destruct Hlt as (Ht0 & Hmin & Hlr).
      destruct (PrimFloat.eqb x t0) eqn:He; simpl.
      * split_and!.
        -- apply elem_of_app. by left.
        -- apply Forall_app. split; [done|]. constructor; [|done].
           by apply eqb_not_ltb.
        -- rewrite count_gt_app, count_gt_cons, count_gt_nil.
           rewrite Forall_forall in HP. rewrite (HP t0 Ht0). lia.
      * split_and!.
        -- apply elem_of_app. right. by left.
        -- apply Forall_app. split; [done|]. constructor; [|done].
           apply ltb_irrefl.
        -- unfold fresh in Hhead. simpl in Hhead.
           rewrite Hhead.
           rewrite !count_gt_app, !count_gt_cons, count_gt_nil, ltb_irrefl.
           rewrite (count_gt_none x S HS). lia.
    + subst P. simpl. split_and!.
      * by left.
      * constructor; [apply ltb_irrefl|done].
      * rewrite count_gt_cons, ltb_irrefl, count_gt_nil. simpl in *. lia.
Qed.

Lemma rank_seq_descending l k t :
  no_nan l → descending l → l !! k = Some t →
  rank_seq l 1 None 0 !! k = Some (1 + Z.of_nat (count_gt t l))%Z.
Proof. intros. by apply (rank_seq_counts l []). Qed.

End RankSeq.

(** ** The ranking loop on the shared dictionaries *)

Section RankLoop.

Lemma same_fields_refl d : same_fields d d.
Proof. by intros rk. Qed.

Lemma same_fields_trans d1 d2 d3 :
  same_fields d1 d2 → same_fields d2 d3 → same_fields d1 d3.
Proof. intros H1 H2 rk. by rewrite H1. Qed.

Lemma same_fields_set_rank d rk : same_fields (set_rank d rk) d.
Proof. by intros rk'. Qed.

Lemma same_fields_student d d' : same_fields d d' → r_student d = r_student d'.
Proof. intros H. exact (f_equal r_student (H None)). Qed.

Lemma same_fields_total d d' : same_fields d d' → r_total d = r_total d'.
Proof. intros H. exact (f_equal r_total (H None)). Qed.

Lemma same_fields_avg d d' : same_fields d d' → r_avg d = r_avg d'.
Proof. intros H. exact (f_equal r_avg (H None)). Qed.

Lemma same_fields_grade d d' : same_fields d d' → r_grade d = r_grade d'.
Proof. intros H. exact (f_equal r_grade (H None)). Qed.

Lemma rank_loop_spec srt : ∀ idx lt lr rs,
  NoDup srt → Forall (λ i, i < length rs) srt →
  length (rank_loop srt idx lt lr rs) = length rs ∧
  (∀ i, same_fields (rank_loop srt idx lt lr rs !!! i) (rs !!! i)) ∧
  (∀ i, i ∉ srt → rank_loop srt idx lt lr rs !!! i = rs !!! i) ∧
  (∀ k i, srt !! k = Some i →
     r_rank (rank_loop srt idx lt lr rs !!! i) =
       rank_seq ((λ j, r_total (rs !!! j)) <$> srt) idx lt lr !! k).
Proof.
  induction srt as [|item rest IH]; intros idx lt lr rs Hnd Hlt.
  { simpl. split_and!; [done|intros; apply same_fields_refl|done|done]. }
  apply NoDup_cons in Hnd as [Hitem Hnd].
  apply Forall_cons in Hlt as [Hlen Hlt].
  simpl rank_loop.
  set (total := r_total (rs !!! item)).
  set (fresh := match lt with
                | None => true
                | Some t0 => negb (PrimFloat.eqb total t0)
                end).
  set (lr' := if fresh then idx else lr).
  set (lt' := if fresh then Some total else lt).
  set (rs1 := <[item := set_rank (rs !!! item) (Some lr')]> rs).
  assert (Hlen1 : length rs1 = length rs) by apply length_insert.
  assert (Hsame1 : ∀ i, same_fields (rs1 !!! i) (rs !!! i)).
  { intros i. unfold rs1. destruct (decide (item = i)) as [->|Hne].
    - rewrite list_lookup_total_insert_eq by done. apply same_fields_set_rank.
    - rewrite list_lookup_total_insert_ne by done. apply same_fields_refl. }
  destruct (IH (idx + 1)%Z lt' lr' rs1 Hnd) as (IH1 & IH2 & IH3 & IH4).
  { by rewrite Hlen1. }
  split_and!.
  - by rewrite IH1.
  - intros i. eapply same_fields_trans; [apply IH2|apply Hsame1].
  - intros i [Hne Hi]%not_elem_of_cons. rewrite IH3 by done.
    unfold rs1. by rewrite list_lookup_total_insert_ne.
  - intros [|k] i Hk; simpl in Hk.
    + injection Hk as <-. rewrite IH3 by done. unfold rs1.
      by rewrite list_lookup_total_insert_eq.
    + rewrite (IH4 k i Hk). simpl. fold total fresh lr' lt'.
      do 2 f_equal. apply list_fmap_ext. intros _ j _.
      apply same_fields_total, Hsame1.
Qed.

(** The rank map holds, for every student of a visited dictionary, the
    rank of a visited dictionary of that student. *)
Lemma build_rank_map_lookup srt rs a i :
  i ∈ srt → r_student (rs !!! i) = a →
  ∃ q, q ∈ srt ∧ r_student (rs !!! q) = a ∧
       build_rank_map srt rs !! a = Some (r_rank (rs !!! q)).
Proof.
  unfold build_rank_map.
  set (f := λ (m : gmap nat (option Z)) item,
              <[r_student (rs !!! item) := r_rank (rs !!! item)]> m).
  assert (Hgen : ∀ l m,
    (∃ q, q ∈ l ∧ r_student (rs !!! q) = a ∧
          fold_left f l m !! a = Some (r_rank (rs !!! q))) ∨
    ((∀ q, q ∈ l → r_student (rs !!! q) ≠ a) ∧
     fold_left f l m !! a = m !! a)).
  { induction l as [|j l IHl]; intros m; simpl.
    - right. split; [by intros q ?%elem_of_nil|done].
    - destruct (IHl (f m j)) as [(q & Hq & Ha & Hlk)|[Hno Hlk]].
      + left. exists q. split_and!; [by right|done|done].
      + destruct (decide (r_student (rs !!! j) = a)) as [Hj|Hj].
        * left. exists j. split_and!; [by left|done|].
          rewrite Hlk. unfold f. rewrite Hj. apply lookup_insert_eq.
        * right. split.
          -- intros q [->|Hq]%elem_of_cons; [done|by apply Hno].
          -- rewrite Hlk. unfold f. by rewrite lookup_insert_ne. }
  intros Hi Ha. destruct (Hgen srt ∅) as [?|[Hno _]]; [done|].
  by destruct (Hno i Hi).
Qed.

(** The rank written into the dictionary at position [p]: the one handed
    out at some position [k] of the sorted order to a dictionary [q] of
    the same student. *)
Lemma assign_ranks_lookup rs p d :
  rs !! p = Some d →
  let key := λ i, r_total (rs !!! i) in
  let srt := sorted_desc key (seq 0 (length rs)) in
  ∃ q k, srt !! k = Some q ∧ q < length rs ∧
         r_student (rs !!! q) = r_student d ∧
         assign_ranks rs !! p =
           Some (set_rank d (rank_seq (key <$> srt) 1 None 0 !! k)).
Proof.
  intros Hp key srt. unfold assign_ranks. fold key. fold srt.
  assert (Hperm : srt ≡ₚ seq 0 (length rs)) by apply sorted_desc_perm.
  assert (Hnd : NoDup srt) by (rewrite Hperm; apply NoDup_seq).
  assert (Hlt : Forall (λ i, i < length rs) srt).
  { rewrite Hperm. apply Forall_forall. intros i Hi%elem_of_seq. lia. }
  destruct (rank_loop_spec srt 1 None 0 rs Hnd Hlt) as (H1 & H2 & _ & H4).
  set (rs' := rank_loop srt 1 None 0 rs) in *.
  assert (Hplt : p < length rs) by by eapply lookup_lt_Some.
  assert (Hd : rs !!! p = d) by by apply list_lookup_total_correct.
  assert (Hpin : p ∈ srt).
  { rewrite Hperm. apply elem_of_seq. lia. }
  destruct (build_rank_map_lookup srt rs' (r_student d) p Hpin)
    as (q & Hq & Hst & Hlk).
  { rewrite <-Hd. apply same_fields_student, H2. }
  apply list_elem_of_lookup in Hq as [k Hk].
  exists q, k. split_and!; [done| | |].
  - rewrite Forall_forall in Hlt. apply Hlt. by eapply list_elem_of_lookup_2.
  - rewrite <-Hst. symmetry. apply same_fields_student, H2.
  - unfold apply_rank_map. rewrite list_lookup_fmap.
    rewrite (list_lookup_lookup_total_lt rs' p) by by rewrite H1.
    simpl. f_equal.
    assert (Hsf : same_fields (rs' !!! p) d) by (rewrite <-Hd; apply H2).
    rewrite (same_fields_student _ _ Hsf), Hlk, (H4 k q Hk). simpl.
    apply Hsf.
Qed.

Lemma assign_ranks_length rs : length (assign_ranks rs) = length rs.
Proof.
  unfold assign_ranks, apply_rank_map. rewrite length_fmap.
  set (srt := sorted_desc _ _).
  assert (Hperm : srt ≡ₚ seq 0 (length rs)) by apply sorted_desc_perm.
  apply rank_loop_spec.
  - rewrite Hperm. apply NoDup_seq.
  - rewrite Hperm. apply Forall_forall. intros i Hi%elem_of_seq. lia.
Qed.

Lemma fmap_total_seq rs :
  (λ i, r_total (rs !!! i)) <$> seq 0 (length rs) = r_total <$> rs.
Proof.
  apply list_eq. intros i. rewrite !list_lookup_fmap.
  destruct (decide (i < length rs)) as [Hi|Hi].
  - rewrite lookup_seq_lt by done. simpl.
    by rewrite (list_lookup_lookup_total_lt rs i Hi).
  - rewrite lookup_seq_ge by lia. by rewrite lookup_ge_None_2 by lia.
Qed.

(** Without any assumption on the totals, every rank is set and lies
    between 1 and the number of dictionaries. *)
Lemma assign_ranks_bounds rs d :
  d ∈ assign_ranks rs →
  ∃ r, r_rank d = Some r ∧ (1 ≤ r ≤ Z.of_nat (length rs))%Z.
Proof.
  intros [p Hp]%list_elem_of_lookup.
  assert (Hplt : p < length rs).
  { rewrite <-assign_ranks_length. by eapply lookup_lt_Some. }
  destruct (lookup_lt_is_Some_2 rs p Hplt) as [d0 Hd0].
  destruct (assign_ranks_lookup rs p d0 Hd0) as (q & k & Hk & _ & _ & Heq).
  rewrite Hp in Heq. injection Heq as ->. simpl.
  set (l := (λ i, r_total (rs !!! i)) <$> _) in *.
  assert (Hl : length l = length rs).
  { unfold l. by rewrite length_fmap, sorted_desc_length, length_seq. }
  assert (Hklt : k < length (rank_seq l 1 None 0)).
  { rewrite rank_seq_length, Hl. apply lookup_lt_Some in Hk.
    by rewrite sorted_desc_length, length_seq in Hk. }
  destruct (lookup_lt_is_Some_2 _ k Hklt) as [ρ Hρ].
  exists ρ. split; [done|]. rewrite <-Hl.
  by eapply rank_seq_bounds, list_elem_of_lookup_2.
Qed.

Lemma assign_ranks_same_fields rs p d d' :
  rs !! p = Some d → assign_ranks rs !! p = Some d' → same_fields d' d.
Proof.
  intros Hd Hd'.
  destruct (assign_ranks_lookup rs p d Hd) as (q & k & _ & _ & _ & Heq).
  rewrite Hd' in Heq. injection Heq as ->. apply same_fields_set_rank.
Qed.

(** Competition ranking: when the totals are ordered and the dictionaries
    of one student carry one total, the rank is one more than the number of
    totals above the student's. *)
Lemma assign_ranks_competition rs :
  no_nan (r_total <$> rs) →
  (∀ i j, i < length rs → j < length rs →
     r_student (rs !!! i) = r_student (rs !!! j) →
     r_total (rs !!! i) = r_total (rs !!! j)) →
  assign_ranks rs =
    (λ d, set_rank d
       (Some (1 + Z.of_nat (count_gt (r_total d) (r_total <$> rs)))%Z)) <$> rs.
Proof.
  intros Hn Halias. apply list_eq. intros p. rewrite list_lookup_fmap.
  destruct (rs !! p) as [d|] eqn:Hd; simpl.
  2: { apply lookup_ge_None. rewrite assign_ranks_length.
       by apply lookup_ge_None. }
  destruct (assign_ranks_lookup rs p d Hd) as (q & k & Hk & Hq & Hst & ->).
  f_equal. f_equal.
  set (key := λ i, r_total (rs !!! i)) in *.
  set (srt := sorted_desc key (seq 0 (length rs))) in *.
  assert (Hperm : key <$> srt ≡ₚ r_total <$> rs).
  { rewrite <-fmap_total_seq. fold key. unfold srt.
    by rewrite sorted_desc_perm. }
  assert (Hd' : rs !!! p = d) by by apply list_lookup_total_correct.
  assert (Hkey : key q = r_total d).
  { unfold key. rewrite <-Hd'. apply Halias; [done| |by rewrite Hd'].
    by eapply lookup_lt_Some. }
  rewrite (rank_seq_descending (key <$> srt) k (key q)).
  - by rewrite Hkey, (count_gt_perm _ _ _ Hperm).
  - unfold no_nan. by rewrite Hperm.
  - apply sorted_desc_descending. unfold key. rewrite fmap_total_seq.
    exact Hn.
  - by rewrite list_lookup_fmap, Hk.
Qed.

End RankLoop.

(** ** Positions in a descending arrangement of the totals *)

Section Positions.

Lemma eqb_sym x y : PrimFloat.eqb x y = true → PrimFloat.eqb y x = true.
Proof. rewrite !eqb_fcmp. intros H. by apply fcmp_antisym in H. Qed.

Lemma descending_lookup S : ∀ i j a b,
  descending S → i < j → S !! i = Some a → S !! j = Some b →
  PrimFloat.ltb a b = false.
Proof.
  induction S as [|x S IH]; intros i j a b Hs Hij Hi Hj; [done|].
  apply StronglySorted_inv in Hs as [Hs Hx].
  destruct j as [|j]; [lia|]. simpl in Hj.
  destruct i as [|i]; simpl in Hi.
  - injection Hi as ->. rewrite Forall_forall in Hx.
    by eapply Hx, list_elem_of_lookup_2.
  - eapply (IH i j); [done|lia|done..].
Qed.

(** In a descending list the entries above [t] come first. *)
Lemma descending_prefix_gt S t : ∀ j x,
  no_nan S → descending S → S !! j = Some x →
  (j < count_gt t S ↔ PrimFloat.ltb t x = true).
Proof.
  induction S as [|x0 S IH]; intros j x Hn Hs Hj; [done|].
  apply Forall_cons in Hn as [Hx0 Hn].
  apply StronglySorted_inv in Hs as [Hs Hall].
  rewrite count_gt_cons. destruct (PrimFloat.ltb t x0) eqn:Ht.
  - destruct j as [|j]; simpl in Hj.
    + injection Hj as <-. split; [done|lia].
    + rewrite <-(IH j x Hn Hs Hj). lia.
  - rewrite count_gt_none.
    2: { eapply Forall_impl; [exact Hall|]. intros s Hs'.
         by apply (geb_trans t x0 s). }
    split; [lia|]. intros Hx. destruct j as [|j]; simpl in Hj.
    + injection Hj as <-. congruence.
    + rewrite Forall_forall in Hall.
      assert (PrimFloat.ltb t x = false); [|congruence].
      apply (geb_trans t x0 x); [done..|].
      by eapply Hall, list_elem_of_lookup_2.
Qed.


End Positions.

(** ** What [recalculate] returns *)

Section Results.

Context {interp : Interp}.

Lemma ordered_totals_no_nan σ :
  ordered_totals σ = true → no_nan (total_of σ <$> students (book σ)).
Proof.
  unfold ordered_totals, no_nan. rewrite forallb_forall, Forall_fmap.
  intros H. apply Forall_forall. intros a Ha. simpl.
  apply negb_true_iff, H. by apply list_elem_of_In.
Qed.

(** The value returned on a numeric roster with ordered totals. *)
Lemma recalculate_ranked σ :
  numeric σ = true → ordered_totals σ = true →
  fst (recalculate σ) =
    Ok ((λ a, set_rank (result_of σ a)
           (Some (1 + Z.of_nat (count_gt (total_of σ a)
                                  (total_of σ <$> students (book σ))))%Z))
        <$> students (book σ)).
Proof.
  intros Hnum Hord. rewrite (recalculate_numeric σ Hnum). simpl. f_equal.
  set (studs := students (book σ)).
  assert (Htot : r_total <$> (result_of σ <$> studs) = total_of σ <$> studs).
  { by rewrite <-list_fmap_compose. }
  rewrite assign_ranks_competition.
  - rewrite Htot, <-list_fmap_compose. done.
  - rewrite Htot. by apply ordered_totals_no_nan.
  - rewrite length_fmap. intros i j Hi Hj.
    rewrite !(list_lookup_total_fmap (result_of σ) studs) by done.
    simpl. by intros ->.
Qed.

End Results.

(** * The claims *)

Section Claims.

Context {interp : Interp}.

Lemma recalculate_fields σ :
  numeric σ = true →
  ∃ rs, fst (recalculate σ) = Ok rs ∧
        Forall2 (λ a d, same_fields d (result_of σ a)) (students (book σ)) rs.
Proof.
  intros Hnum. rewrite (recalculate_numeric σ Hnum). simpl.
  eexists. split; [reflexivity|].
  set (rs0 := result_of σ <$> students (book σ)).
  apply Forall2_same_length_lookup. split.
  - unfold rs0. by rewrite assign_ranks_length, length_fmap.
  - intros i a d Ha Hd. eapply (assign_ranks_same_fields rs0 i); [|done].
    unfold rs0. by rewrite list_lookup_fmap, Ha.
Qed.

(** C1 (defect). [recalculate] raises on a non-numeric stored value: the
    conversion in [Student.get_score] runs before the [try] of
    [recalculate], so a stored [None] raises TypeError and a stored string
    that is not a number raises ValueError, instead of counting as 0.0. *)
Theorem recalculate_raises_on_non_numeric :
  fst (recalculate roster_none) = Raise TypeError ∧
  fst (recalculate (interp := rejecting) roster_abc) = Raise ValueError.
Proof. split; reflexivity. Qed.

(** C3. The grade is the step function of the average with inclusive lower
    bounds: [avg >= 90] gives A, [80 <= avg < 90] gives B,
    [70 <= avg < 80] gives C, [60 <= avg < 70] gives D and [avg < 60]
    gives F; at the boundary values 90.0, 80.0, 70.0 and 60.0 the grade is
    the one of the band that starts there, and just below them the one of
    the band underneath. The hexadecimal literals are the binary64 values
    of 89.999, 79.999, 69.999 and 59.999. *)
Theorem grade_from_avg_bands (avg : float) :
  (PrimFloat.leb 90 avg = true → grade_from_avg avg = "A") ∧
  (PrimFloat.leb 80 avg = true → PrimFloat.ltb avg 90 = true →
     grade_from_avg avg = "B") ∧
  (PrimFloat.leb 70 avg = true → PrimFloat.ltb avg 80 = true →
     grade_from_avg avg = "C") ∧
  (PrimFloat.leb 60 avg = true → PrimFloat.ltb avg 70 = true →
     grade_from_avg avg = "D") ∧
  (PrimFloat.ltb avg 60 = true → grade_from_avg avg = "F") ∧
  grade_from_avg 90 = "A" ∧ grade_from_avg 0x1.67fef9db22d0ep+6 = "B" ∧
  grade_from_avg 80 = "B" ∧ grade_from_avg 0x1.3ffef9db22d0ep+6 = "C" ∧
  grade_from_avg 70 = "C" ∧ grade_from_avg 0x1.17fef9db22d0ep+6 = "D" ∧
  grade_from_avg 60 = "D" ∧ grade_from_avg 0x1.dffdf3b645a1dp+5 = "F".
Proof.
  assert (Hdown : ∀ lo hi,
    PrimFloat.ltb lo hi = true → PrimFloat.ltb avg lo = true →
    PrimFloat.leb hi avg = false).
  { intros lo hi Hlh Hal. apply ltb_not_leb.
    apply (ltb_ge_trans avg lo hi); [|done|by apply ltb_asym].
    apply ltb_fcmp in Hlh. apply is_nan_fcmp.
    eapply SFcompare_Some_r, Hlh. }
  unfold grade_from_avg. split_and!; try reflexivity.
  - by intros ->.
  - intros H80 H90. by rewrite (ltb_not_leb _ _ H90), H80.
  - intros H70 H80.
    by rewrite (Hdown 80%float 90%float eq_refl H80), (ltb_not_leb _ _ H80), H70.
  - intros H60 H70.
    by rewrite (Hdown 70%float 90%float eq_refl H70), (Hdown 70%float 80%float eq_refl H70),
      (ltb_not_leb _ _ H70), H60.
  - intros H60.
    by rewrite (Hdown 60%float 90%float eq_refl H60), (Hdown 60%float 80%float eq_refl H60),
      (Hdown 60%float 70%float eq_refl H60), (ltb_not_leb _ _ H60).
Qed.

(** C4. On a numeric roster, the total of every student is the sum, over
    the subject list in order, of the value of each subject: 0.0 for a
    subject absent from the student's scores, and the float of what is
    stored otherwise. The sum is the binary64 sum: the values are added
    one after the other to 0.0, from the first subject to the last. The
    total is 0.0 when there is no subject, and the average is the binary64
    quotient of the total by the number of subjects when there is one, and
    0.0 otherwise; the divisor is the float nearest to the number of
    subjects. *)
Theorem recalculate_total_and_average σ :
  numeric σ = true →
  let n := Z.of_nat (length (subjects (book σ))) in
  let count := PrimFloat.of_uint63 (Uint63.of_Z n) in
  ((n < 2 ^ 63)%Z → Prim2SF count = binary_normalize prec emax n 0 false) ∧
  ∃ rs, fst (recalculate σ) = Ok rs ∧
    Forall2 (λ a d,
      (∃ values,
         Forall2 (λ subj v,
           match scores (objs σ !!! a) !! subj with
           | None => v = 0%float
           | Some w => py_float w = Ok v
           end) (subjects (book σ)) values ∧
         r_total d = fold_left PrimFloat.add values 0%float) ∧
      (subjects (book σ) = [] → r_total d = 0%float) ∧
      r_avg d = if bool_decide (n > 0)%Z
                then PrimFloat.div (r_total d) count
                else 0%float)
      (students (book σ)) rs.
Proof.
  intros Hnum n count. split.
  { intros Hn. unfold count. rewrite FloatAxioms.of_uint63_spec.
    rewrite Uint63.of_Z_spec, Z.mod_small; [done|].
    change wB with (2 ^ 63)%Z. lia. }
  destruct (recalculate_fields σ Hnum) as (rs & Hrs & Hf).
  exists rs. split; [done|].
  unfold numeric in Hnum. rewrite forallb_forall in Hnum.
  apply Forall2_same_length_lookup. split; [by eapply Forall2_length|].
  intros i a d Ha Hd.
  pose proof (Forall2_lookup_lr _ _ _ _ _ _ Hf Ha Hd) as Hsame.
  rewrite (same_fields_total _ _ Hsame), (same_fields_avg _ _ Hsame).
  simpl. split_and!; [|unfold total_of; by intros ->|done].
  exists (score_of (objs σ !!! a) <$> subjects (book σ)). split; [|done].
  apply Forall2_fmap_r, Forall_Forall2_diag, Forall_forall.
  intros subj Hsubj.
  assert (Hc : converts (objs σ !!! a) subj = true).
  { specialize (Hnum a). rewrite forallb_forall in Hnum.
    apply Hnum; apply list_elem_of_In; [by eapply list_elem_of_lookup_2|done]. }
  unfold converts in Hc. unfold score_of. simpl.
  destruct (scores _ !! subj) as [w|]; [|done]. by destruct (py_float w).
Qed.

(** On a numeric roster, [recalculate] returns
    one dictionary per student, in the order of the students list: the
    students of the returned dictionaries are the students list itself. *)
Theorem recalculate_one_result_per_student σ :
  numeric σ = true →
  ∃ rs, fst (recalculate σ) = Ok rs ∧
        length rs = length (students (book σ)) ∧
        r_student <$> rs = students (book σ).
Proof.
  intros Hnum. destruct (recalculate_fields σ Hnum) as (rs & Hrs & Hf).
  exists rs. split_and!; [done|symmetry; by eapply Forall2_length|].
  clear Hrs. induction Hf as [|a d l k Hsame _ IH]; [done|].
  by rewrite fmap_cons, IH, (same_fields_student _ _ Hsame).
Qed.

(** C5 (defect). [recalculate] does not return a dictionary for every
    student of every roster: with two students listed, the second of them
    with [None] stored for the only subject, it raises TypeError and
    returns nothing, not even for the first student. The conversion that
    raises is the one of [Student.get_score], as in C1. *)
Theorem recalculate_returns_no_dictionary :
  students (book roster_one_none) = [0; 1] ∧
  numeric roster_one_none = false ∧
  fst (student_result 1 0 roster_one_none)
    = Ok {| r_student := 0; r_total := 70; r_avg := 70; r_grade := "C";
            r_rank := None |} ∧
  fst (student_result 1 1 roster_one_none) = Raise TypeError ∧
  fst (recalculate roster_one_none) = Raise TypeError.
Proof. split_and!; reflexivity. Qed.

(** C7. On a numeric roster, the rank of every
    returned dictionary is set (never [None]) and lies between 1 and the
    number of students; there is a dictionary for every student, so a rank
    is missing only when there is no dictionary at all. *)
Theorem recalculate_rank_bounds σ :
  numeric σ = true →
  ∃ rs, fst (recalculate σ) = Ok rs ∧
        length rs = length (students (book σ)) ∧
        Forall (λ d, ∃ r, r_rank d = Some r ∧
                  (1 ≤ r ≤ Z.of_nat (length (students (book σ))))%Z) rs.
Proof.
  intros Hnum. rewrite (recalculate_numeric σ Hnum). simpl.
  eexists. split; [reflexivity|].
  split; [by rewrite assign_ranks_length, length_fmap|].
  apply Forall_forall. intros d Hd.
  destruct (assign_ranks_bounds _ d Hd) as (r & Hr & Hb).
  exists r. by rewrite length_fmap in Hb.
Qed.

(** C9. [recalculate] leaves the store as it found it, whether it returns
    or raises: the subjects list, the students list and every student
    object (name, scores, phone, note) are the same after the call. The
    dictionaries it returns are values of their own; a [Student] has no
    field that could hold them. *)
Theorem recalculate_leaves_roster σ :
  let σ' := snd (recalculate σ) in
  σ' = σ ∧
  subjects (book σ') = subjects (book σ) ∧
  students (book σ') = students (book σ) ∧
  ∀ a, objs σ' !! a = objs σ !! a.
Proof.
  simpl. by rewrite (stateless_recalculate σ).
Qed.

(** C6. A roster without students gives the empty list, whatever its
    subjects; a roster without subjects gives, for every student, total
    0.0, average 0.0, grade F and rank 1, whatever is stored in the
    students' scores. *)
Theorem recalculate_empty_roster σ :
  (students (book σ) = [] → fst (recalculate σ) = Ok []) ∧
  (subjects (book σ) = [] →
     fst (recalculate σ) =
       Ok ((λ a, {| r_student := a; r_total := 0; r_avg := 0;
                    r_grade := "F"; r_rank := Some 1%Z |})
           <$> students (book σ))).
Proof.
  split.
  - intros Hst. rewrite recalculate_numeric.
    + by rewrite Hst.
    + unfold numeric. by rewrite Hst.
  - intros Hsubj.
    assert (Htot : ∀ a, total_of σ a = 0%float).
    { intros a. unfold total_of. by rewrite Hsubj. }
    rewrite recalculate_ranked.
    + f_equal. apply list_fmap_ext. intros _ a _.
      rewrite count_gt_none.
      2: { apply Forall_fmap, Forall_forall. intros b _. simpl.
           by rewrite !Htot. }
      unfold result_of, avg_of, set_rank. simpl.
      by rewrite !Htot, Hsubj.
    + unfold numeric. apply forallb_forall. intros a _. by rewrite Hsubj.
    + unfold ordered_totals. apply forallb_forall. intros a _.
      by rewrite Htot.
Qed.


(** C10. [remove_student] never raises. With [0 <= index < len(students)]
    it removes the entry at that position of the students list; with any
    other index, negative ones included, it leaves the list as it is.
    Subjects and student objects are untouched in both cases. *)
Theorem remove_student_in_and_out_of_range σ (index : Z) :
  let n := Z.of_nat (length (students (book σ))) in
  let σ' := snd (remove_student index σ) in
  fst (remove_student index σ) = Ok () ∧
  subjects (book σ') = subjects (book σ) ∧
  objs σ' = objs σ ∧
  ((0 ≤ index < n)%Z →
     students (book σ') = delete (Z.to_nat index) (students (book σ)) ∧
     Z.of_nat (length (students (book σ'))) = (n - 1)%Z) ∧
  (¬ (0 ≤ index < n)%Z → students (book σ') = students (book σ)).
Proof.
  simpl. unfold remove_student, read_students, write_students, py_pop, lift.
  unfold mbind, M_bind, mret, M_ret. simpl.
  case_bool_decide as Hin; simpl.
  - split_and!; [done..| |done]. intros _. split; [done|].
    rewrite length_delete; [lia|].
    apply lookup_lt_is_Some_2. lia.
  - split_and!; [done..| |done]. intros ?. done.
Qed.

(** C8 (defect). The two grade functions agree on every average, but the
    two rankings do not agree on tied totals: on totals [100, 100, 90]
    [core.recalculate] gives ranks [1, 1, 3] and the ranking of
    [gui.MainWindow.recalculate_all] gives [1, 2, 3]. *)
Theorem gui_ranking_splits_ties :
  (∀ avg, Gui.grade_from_avg avg = grade_from_avg avg) ∧
  (∃ rs, fst (recalculate roster_tie) = Ok rs ∧
         r_total <$> rs = [100; 100; 90]%float ∧
         r_rank <$> rs = [Some 1; Some 1; Some 3]%Z) ∧
  Gui.recalculate_all_ranks [100; 100; 90]%float = [Some 1; Some 2; Some 3]%Z.
Proof.
  split_and!; [done| |reflexivity].
  eexists. split; [reflexivity|]. split; reflexivity.
Qed.

End Claims.

(** * Instances of the claims on the example rosters *)

Section Witnesses.

#[local] Existing Instance rejecting.

Lemma grade_from_avg_bands_witness :
  PrimFloat.leb 80 85.5 = true ∧ PrimFloat.ltb 85.5 90 = true ∧
  grade_from_avg 85.5 = "B".
Proof.
  split; [reflexivity|]. split; [reflexivity|].
  apply (grade_from_avg_bands 85.5%float); reflexivity.
Defined.

Lemma recalculate_total_and_average_witness :
  numeric roster_three_subjects = true ∧
  ∃ rs, fst (recalculate roster_three_subjects) = Ok rs ∧
        r_total <$> rs = [90; 60]%float ∧
        r_avg <$> rs = [30; 20]%float ∧
        Forall (λ d, ∃ values,
                  length values = 3 ∧
                  r_total d = fold_left PrimFloat.add values 0%float ∧
                  r_avg d = PrimFloat.div (r_total d) 3%float) rs.
Proof.
  split; [reflexivity|].
  destruct (recalculate_total_and_average roster_three_subjects eq_refl)
    as (_ & rs & Hrs & Hf).
  exists rs. split; [exact Hrs|].
  split; [vm_compute in Hrs; by injection Hrs as <-|].
  split; [vm_compute in Hrs; by injection Hrs as <-|].
  apply Forall_forall. intros d Hd.
  apply list_elem_of_lookup in Hd as [i Hd].
  destruct (Forall2_lookup_r _ _ _ _ _ Hf Hd)
    as (a & _ & (values & Hvalues & Htotal) & _ & Havg).
  exists values. split; [symmetry; exact (Forall2_length _ _ _ Hvalues)|].
  split; [exact Htotal|exact Havg].
Defined.

Lemma recalculate_one_result_per_student_witness :
  numeric roster_alias = true ∧
  ∃ rs, fst (recalculate roster_alias) = Ok rs ∧ length rs = 4 ∧
        r_student <$> rs = [0; 1; 2; 1].
Proof.
  split; [reflexivity|].
  exact (recalculate_one_result_per_student roster_alias eq_refl).
Defined.

Lemma recalculate_rank_bounds_witness :
  numeric roster_alias = true ∧
  ∃ rs, fst (recalculate roster_alias) = Ok rs ∧ length rs = 4 ∧
        Forall (λ d, ∃ r, r_rank d = Some r ∧ (1 ≤ r ≤ 4)%Z) rs.
Proof.
  split; [reflexivity|].
  exact (recalculate_rank_bounds roster_alias eq_refl).
Defined.

Lemma recalculate_empty_roster_witness :
  (students (book roster_no_students) = [] ∧
   fst (recalculate roster_no_students) = Ok []) ∧
  (subjects (book roster_no_subjects) = [] ∧
   fst (recalculate roster_no_subjects) =
     Ok [ {| r_student := 0; r_total := 0; r_avg := 0; r_grade := "F";
             r_rank := Some 1%Z |};
          {| r_student := 1; r_total := 0; r_avg := 0; r_grade := "F";
             r_rank := Some 1%Z |} ]).
Proof.
  split; (split; [reflexivity|]).
  - exact (proj1 (recalculate_empty_roster roster_no_students) eq_refl).
  - exact (proj2 (recalculate_empty_roster roster_no_subjects) eq_refl).
Defined.



Lemma remove_student_in_and_out_of_range_witness :
  ((0 ≤ 1 < Z.of_nat (length (students (book roster_alias))))%Z ∧
   students (book (snd (remove_student 1 roster_alias))) = [0; 2; 1]) ∧
  (¬ (0 ≤ -1 < Z.of_nat (length (students (book roster_alias))))%Z ∧
   students (book (snd (remove_student (-1) roster_alias))) = [0; 1; 2; 1]).
Proof.
  split.
  - assert (H : (0 ≤ 1 < Z.of_nat (length (students (book roster_alias))))%Z)
      by (simpl; lia).
    split; [exact H|].
    exact (proj1 (proj1 (proj2 (proj2 (proj2
      (remove_student_in_and_out_of_range roster_alias 1)))) H)).
  - assert (H : ¬ (0 ≤ -1 < Z.of_nat (length (students (book roster_alias))))%Z)
      by (simpl; lia).
    split; [exact H|].
    exact (proj2 (proj2 (proj2 (proj2
      (remove_student_in_and_out_of_range roster_alias (-1))))) H).
Defined.

End Witnesses.

(** * The operations of model.py *)

(** ** Writing into the store *)

Section Updates.

Lemma with_scores_id st : with_scores st (scores st) = st.
Proof. by destruct st. Qed.

Lemma with_scores_twice st m m' :
  with_scores (with_scores st m) m' = with_scores st m'.
Proof. done. Qed.

Lemma py_setdefault_lookup k v d k' :
  py_setdefault k v d !! k' =
    if decide (k = k') then Some (default v (d !! k)) else d !! k'.
Proof.
  unfold py_setdefault. destruct (d !! k) as [w|] eqn:Hk; case_decide; subst;
    simpl; try done.
  - by rewrite lookup_insert_eq.
  - by rewrite lookup_insert_ne.
Qed.

Lemma py_setdefault_idemp k v d :
  py_setdefault k v (py_setdefault k v d) = py_setdefault k v d.
Proof.
  unfold py_setdefault at 1. rewrite py_setdefault_lookup.
  by rewrite decide_True.
Qed.

(** A loop that updates the scores of the objects of [l] with an idempotent
    update [f]: it returns, leaves the grade book alone, updates every
    object of [l] once and touches no other object. *)
Lemma iterM_update_scores f l : ∀ σ,
  (∀ m, f (f m) = f m) →
  let σ' := snd (iterM (λ a, update_scores a f) l σ) in
  fst (iterM (λ a, update_scores a f) l σ) = Ok () ∧
  book σ' = book σ ∧
  (∀ a, a ∈ l →
     objs σ' !! a =
       Some (with_scores (objs σ !!! a) (f (scores (objs σ !!! a))))) ∧
  (∀ a, a ∉ l → objs σ' !! a = objs σ !! a).
Proof.
  induction l as [|b l IH]; intros σ Hf; simpl.
  { split_and!; [done..| |done]. by intros a ?%elem_of_nil. }
  unfold mbind, M_bind, update_scores at 1. simpl.
  set (σ1 := {| book := book σ; objs := _ |}).
  destruct (IH σ1 Hf) as (IH1 & IH2 & IH3 & IH4).
  split_and!; [done|done| |].
  - intros a Ha. destruct (decide (a ∈ l)) as [Hin|Hnin].
    + rewrite (IH3 a Hin). f_equal. unfold σ1. simpl.
      destruct (decide (b = a)) as [->|Hne].
      * rewrite lookup_total_insert_eq. simpl. by rewrite Hf.
      * by rewrite lookup_total_insert_ne.
    + apply elem_of_cons in Ha as [->|?]; [|done].
      rewrite (IH4 b Hnin). unfold σ1. simpl. by rewrite lookup_insert_eq.
  - intros a [Hne Hnin]%not_elem_of_cons. rewrite (IH4 a Hnin).
    unfold σ1. simpl. by rewrite lookup_insert_ne.
Qed.

(** A loop of updates of one object. *)
Lemma iterM_update_one {B} (h : B → gmap string pyval → gmap string pyval)
    a l : ∀ σ st,
  objs σ !! a = Some st →
  iterM (λ x, update_scores a (h x)) l σ =
    (Ok (), {| book := book σ;
               objs := <[a := with_scores st
                                 (foldl (λ m x, h x m) (scores st) l)]>
                         (objs σ) |}).
Proof.
  induction l as [|x l IH]; intros σ st Hst; simpl.
  - unfold mret, M_ret. f_equal. destruct σ as [bk ob]. simpl in *. f_equal.
    by rewrite with_scores_id, insert_id.
  - unfold mbind, M_bind, update_scores at 1. simpl.
    rewrite (lookup_total_correct _ _ _ Hst).
    erewrite IH; [|simpl; apply lookup_insert_eq].
    simpl. by rewrite insert_insert_eq.
Qed.

Lemma foldl_setdefault_lookup v l : ∀ (d : gmap string pyval) k,
  foldl (λ m subj, py_setdefault subj v m) d l !! k =
    match d !! k with
    | Some w => Some w
    | None => if bool_decide (k ∈ l) then Some v else None
    end.
Proof.
  induction l as [|s l IH]; intros d k; simpl.
  - by destruct (d !! k).
  - rewrite IH, py_setdefault_lookup. case_decide as Hs; subst.
    + destruct (d !! k); simpl; [done|].
      rewrite bool_decide_true; [done|by left].
    + destruct (d !! k); [done|].
      destruct (decide (k ∈ l)) as [Hin|Hnin].
      * rewrite !bool_decide_true; [done|by right|done].
      * rewrite !bool_decide_false; [done| |done].
        intros [->|?]%elem_of_cons; done.
Qed.

Lemma py_remove_elem x l :
  x ∈ l →
  ∃ l1 l2, l = l1 ++ x :: l2 ∧ (x ∉ l1) ∧ py_remove x l = Ok (l1 ++ l2).
Proof.
  induction l as [|y l IH]; intros Hin; [by apply elem_of_nil in Hin|].
  simpl. case_bool_decide as Hy.
  - subst y. exists [], l. split_and!; [done| |done]. apply not_elem_of_nil.
  - apply elem_of_cons in Hin as [->|Hin]; [done|].
    destruct (IH Hin) as (l1 & l2 & -> & Hnin & ->).
    exists (y :: l1), l2. split_and!; [done| |done].
    intros [->|?]%elem_of_cons; done.
Qed.

End Updates.

(** ** What each operation does to the store *)

Section RosterOps.

Context {interp : Interp}.


Lemma set_score_Ok a subj v x σ :
  py_float v = Ok x →
  set_score a subj v σ =
    (Ok (), {| book := book σ;
               objs := <[a := with_scores (objs σ !!! a)
                                 (<[subj := PyFloat x]>
                                    (scores (objs σ !!! a)))]> (objs σ) |}).
Proof. intros Hv. unfold set_score, lift, mbind, M_bind. by rewrite Hv. Qed.

Lemma set_score_Raise a subj v e σ :
  py_float v = Raise e → set_score a subj v σ = (Raise e, σ).
Proof. intros Hv. unfold set_score, lift, mbind, M_bind. by rewrite Hv. Qed.

Lemma add_subject_skip subj σ :
  subj = "" ∨ subj ∈ subjects (book σ) → add_subject subj σ = (Ok (), σ).
Proof.
  intros H. unfold add_subject, read_subjects, mbind, M_bind. simpl.
  case_bool_decide as H1; [|done]. case_bool_decide as H2; [|done].
  by destruct H.
Qed.

Lemma add_subject_new subj σ :
  subj ≠ "" → subj ∉ subjects (book σ) →
  let σ' := snd (add_subject subj σ) in
  fst (add_subject subj σ) = Ok () ∧
  subjects (book σ') = subjects (book σ) ++ [subj] ∧
  students (book σ') = students (book σ) ∧
  (∀ a, a ∈ students (book σ) →
     objs σ' !! a =
       Some (with_scores (objs σ !!! a)
               (py_setdefault subj (PyFloat 0) (scores (objs σ !!! a))))) ∧
  (∀ a, a ∉ students (book σ) → objs σ' !! a = objs σ !! a).
Proof.
  intros Hne Hnin. unfold add_subject, read_subjects, read_students,
    write_subjects, mbind, M_bind. simpl.
  rewrite !bool_decide_true by done. simpl.
  set (σ1 := {| book := _; objs := objs σ |}).
  destruct (iterM_update_scores (py_setdefault subj (PyFloat 0))
              (students (book σ)) σ1) as (H1 & H2 & H3 & H4).
  { intros m. apply py_setdefault_idemp. }
  destruct (iterM _ _ σ1) as [o σ2]. simpl in *. subst o.
  split_and!; [done|by rewrite H2|by rewrite H2|done|done].
Qed.

Lemma remove_subject_skip subj σ :
  subj ∉ subjects (book σ) → remove_subject subj σ = (Ok (), σ).
Proof.
  intros H. unfold remove_subject, read_subjects, mbind, M_bind. simpl.
  by rewrite bool_decide_false.
Qed.

Lemma remove_subject_listed subj σ :
  subj ∈ subjects (book σ) →
  let σ' := snd (remove_subject subj σ) in
  fst (remove_subject subj σ) = Ok () ∧
  py_remove subj (subjects (book σ)) = Ok (subjects (book σ')) ∧
  students (book σ') = students (book σ) ∧
  (∀ a, a ∈ students (book σ) →
     objs σ' !! a =
       Some (with_scores (objs σ !!! a) (delete subj (scores (objs σ !!! a))))) ∧
  (∀ a, a ∉ students (book σ) → objs σ' !! a = objs σ !! a).
Proof.
  intros Hin. unfold remove_subject, read_subjects, read_students,
    write_subjects, lift, mbind, M_bind. simpl.
  rewrite bool_decide_true by done.
  destruct (py_remove_elem subj _ Hin) as (l1 & l2 & Hl & Hl1 & Hrm).
  rewrite Hrm.
  set (σ1 := {| book := _; objs := objs σ |}).
  destruct (iterM_update_scores (delete subj)
              (students (book σ)) σ1) as (H1 & H2 & H3 & H4).
  { intros m. apply map_eq. intros k.
    destruct (decide (subj = k)) as [->|?].
    - by rewrite !lookup_delete_eq.
    - by rewrite !lookup_delete_ne. }
  destruct (iterM _ _ σ1) as [o σ2]. simpl in *. subst o.
  split_and!; [done|by rewrite H2|by rewrite H2|done|done].
Qed.

Lemma py_remove_last x l : x ∉ l → py_remove x (l ++ [x]) = Ok l.
Proof.
  induction l as [|y l IH]; intros Hnin; simpl.
  - by rewrite bool_decide_true.
  - apply not_elem_of_cons in Hnin as [Hne Hnin].
    rewrite bool_decide_false by done. by rewrite IH.
Qed.

Lemma py_remove_NoDup x l k :
  NoDup l → py_remove x l = Ok k →
  NoDup k ∧ (x ∉ k) ∧ ∀ y, y ∈ k ↔ y ∈ l ∧ y ≠ x.
Proof.
  intros Hnd Hrm. assert (Hin : x ∈ l).
  { clear Hnd. revert k Hrm. induction l as [|y l IH]; intros k; simpl; [done|].
    case_bool_decide as Hy; [subst; left|].
    destruct (py_remove x l) as [k'|] eqn:Hk; [|done].
    intros _. right. by eapply IH. }
  destruct (py_remove_elem x l Hin) as (l1 & l2 & -> & Hl1 & Hrm').
  rewrite Hrm' in Hrm. injection Hrm as <-.
  apply NoDup_app in Hnd as (Hn1 & Hdisj & [Hx Hn2]%NoDup_cons).
  split_and!.
  - apply NoDup_app. split_and!; [done| |done].
    intros y Hy1 Hy2. apply (Hdisj y Hy1). by right.
  - rewrite elem_of_app. tauto.
  - intros y. rewrite !elem_of_app, elem_of_cons. split.
    + intros [Hy|Hy]; (split; [tauto|intros ->; done]).
    + intros [[Hy|[->|Hy]] Hne]; tauto.
Qed.

Lemma add_student_eq n σ :
  let a := fresh (dom (objs σ) ∪ list_to_set (students (book σ))) in
  let st := with_scores {| name := n; scores := ∅; phone := ""; note := "" |}
              (foldl (λ m subj, py_setdefault subj (PyFloat 0) m) ∅
                 (subjects (book σ))) in
  add_student n σ =
    (Ok a, {| book := {| subjects := subjects (book σ);
                         students := students (book σ) ++ [a] |};
              objs := <[a := st]> (objs σ) |}).
Proof.
  simpl. unfold add_student, alloc, read_subjects, read_students,
    write_students. unfold mbind at 1, M_bind. simpl.
  unfold mbind at 1, M_bind. simpl. unfold mbind at 1, M_bind.
  erewrite iterM_update_one; [|simpl; apply lookup_insert_eq].
  simpl. by rewrite insert_insert_eq.
Qed.

Lemma fresh_address σ :
  let a := fresh (dom (objs σ) ∪ list_to_set (students (book σ))) in
  objs σ !! a = None ∧ a ∉ students (book σ).
Proof.
  simpl. set (X := dom (objs σ) ∪ _).
  pose proof (is_fresh X) as Hf. unfold X in Hf.
  rewrite elem_of_union, elem_of_dom, elem_of_list_to_set in Hf.
  split.
  - destruct (objs σ !! fresh X) eqn:E; [|done]. destruct Hf. left. by eexists.
  - intros ?. apply Hf. by right.
Qed.

End RosterOps.

(** ** Properties of the roster operations *)

Section RosterProperties.

Context {interp : Interp}.


(** X2. When [float(value)] raises, [set_score] raises the same exception
    and the store is as before: nothing is written. The value is then
    [None], with a TypeError, a string, with a ValueError, or an [int]
    too large for a float, with an OverflowError; a float never raises. *)
Theorem set_score_raises_unchanged a subj value e σ :
  py_float value = Raise e →
  set_score a subj value σ = (Raise e, σ) ∧
  match value with
  | PyFloat _ => False
  | PyInt z => e = OverflowError ∧ float_of_int z = Raise OverflowError
  | PyStr s => e = ValueError ∧ str_to_float s = None
  | PyNone => e = TypeError
  end.
Proof.
  intros Hv. split; [by apply set_score_Raise|].
  destruct value as [x|z|str|]; simpl in Hv.
  - done.
  - pose proof (float_of_int_Raise z e Hv) as ->. done.
  - destruct (str_to_float str); [done|]. by injection Hv as <-.
  - by injection Hv as <-.
Qed.

(** X3. [add_subject] changes nothing when the name is empty or the
    subject is already listed, and so adding a subject a second time
    changes nothing: the subjects list never gets a duplicate from it. *)
Theorem add_subject_twice subj σ :
  (subj = "" ∨ subj ∈ subjects (book σ) → add_subject subj σ = (Ok (), σ)) ∧
  add_subject subj (snd (add_subject subj σ))
    = (Ok (), snd (add_subject subj σ)).
Proof.
  split; [apply add_subject_skip|].
  apply add_subject_skip.
  destruct (decide (subj = "")) as [?|Hne]; [by left|right].
  destruct (decide (subj ∈ subjects (book σ))) as [Hin|Hnin].
  - rewrite add_subject_skip by by right. done.
  - destruct (add_subject_new subj σ Hne Hnin) as (_ & -> & _).
    apply elem_of_app. right. by left.
Qed.

(** X4. [add_subject] with a new, non-empty name returns, appends the name
    to the subjects list and leaves the students list alone. Every listed
    student then has a score for the subject: the one already stored under
    that name if there was one, 0.0 otherwise. The student's other scores,
    name, phone and note, and all objects that are not listed, are as
    before. *)
Theorem add_subject_new_subject subj σ :
  subj ≠ "" → subj ∉ subjects (book σ) →
  let σ' := snd (add_subject subj σ) in
  fst (add_subject subj σ) = Ok () ∧
  subjects (book σ') = subjects (book σ) ++ [subj] ∧
  students (book σ') = students (book σ) ∧
  (∀ a, a ∈ students (book σ) →
     scores (objs σ' !!! a) !! subj =
       Some (default (PyFloat 0) (scores (objs σ !!! a) !! subj)) ∧
     (∀ k, k ≠ subj →
        scores (objs σ' !!! a) !! k = scores (objs σ !!! a) !! k) ∧
     name (objs σ' !!! a) = name (objs σ !!! a) ∧
     phone (objs σ' !!! a) = phone (objs σ !!! a) ∧
     note (objs σ' !!! a) = note (objs σ !!! a)) ∧
  (∀ a, a ∉ students (book σ) → objs σ' !! a = objs σ !! a).
Proof.
  intros Hne Hnin.
  destruct (add_subject_new subj σ Hne Hnin) as (H1 & H2 & H3 & H4 & H5).
  simpl. split_and!; [done..| |done].
  intros a Ha. rewrite (lookup_total_correct _ _ _ (H4 a Ha)). simpl.
  split_and!; [|intros k Hk|done..].
  - by rewrite py_setdefault_lookup, decide_True.
  - by rewrite py_setdefault_lookup, decide_False.
Qed.

(** X5. [remove_subject] never raises. When the subject is not listed it
    changes nothing. When it is, the first entry with that name leaves the
    subjects list (so the name is gone when the list had no duplicate),
    every listed student loses the score stored under that name and keeps
    all others, and the students list and the objects that are not listed
    are as before. *)
Theorem remove_subject_effect subj σ :
  let σ' := snd (remove_subject subj σ) in
  fst (remove_subject subj σ) = Ok () ∧
  students (book σ') = students (book σ) ∧
  (subj ∉ subjects (book σ) → σ' = σ) ∧
  (subj ∈ subjects (book σ) →
     (∃ l1 l2, subjects (book σ) = l1 ++ subj :: l2 ∧ (subj ∉ l1) ∧
               subjects (book σ') = l1 ++ l2) ∧
     (NoDup (subjects (book σ)) → subj ∉ subjects (book σ')) ∧
     (∀ a, a ∈ students (book σ) →
        scores (objs σ' !!! a) !! subj = None ∧
        (∀ k, k ≠ subj →
           scores (objs σ' !!! a) !! k = scores (objs σ !!! a) !! k) ∧
        name (objs σ' !!! a) = name (objs σ !!! a) ∧
        phone (objs σ' !!! a) = phone (objs σ !!! a) ∧
        note (objs σ' !!! a) = note (objs σ !!! a)) ∧
     (∀ a, a ∉ students (book σ) → objs σ' !! a = objs σ !! a)).
Proof.
  simpl. destruct (decide (subj ∈ subjects (book σ))) as [Hin|Hnin].
  - destruct (remove_subject_listed subj σ Hin) as (H1 & H2 & H3 & H4 & H5).
    simpl in *. split_and!; [done|done|done|]. intros _.
    split_and!; [| |intros a Ha|done].
    + destruct (py_remove_elem subj _ Hin) as (l1 & l2 & Hl & Hl1 & Hrm).
      exists l1, l2. split_and!; [done..|]. congruence.
    + intros Hnd. by eapply py_remove_NoDup.
    + rewrite (lookup_total_correct _ _ _ (H4 a Ha)). simpl.
      split_and!; [by rewrite lookup_delete_eq| |done..].
      intros k Hk. by rewrite lookup_delete_ne.
  - rewrite (remove_subject_skip subj σ Hnin). simpl.
    split_and!; [done..|]. intros ?. done.
Qed.

(** X6. [add_student] returns a new object: it was neither in the store
    nor in the students list. The object is appended to the students list,
    carries the given name, an empty phone and note, and the score 0.0 for
    every subject of the roster and for nothing else. The subjects and all
    other objects are as before. *)
Theorem add_student_new_object n σ :
  let σ' := snd (add_student n σ) in
  ∃ a st,
    fst (add_student n σ) = Ok a ∧
    objs σ !! a = None ∧ (a ∉ students (book σ)) ∧
    students (book σ') = students (book σ) ++ [a] ∧
    subjects (book σ') = subjects (book σ) ∧
    objs σ' !! a = Some st ∧
    name st = n ∧ phone st = "" ∧ note st = "" ∧
    (∀ subj, scores st !! subj =
               if bool_decide (subj ∈ subjects (book σ))
               then Some (PyFloat 0) else None) ∧
    (∀ a', a' ≠ a → objs σ' !! a' = objs σ !! a').
Proof.
  simpl. rewrite add_student_eq. cbn [fst snd book objs subjects students].
  destruct (fresh_address σ) as [Hf1 Hf2]. cbn zeta in Hf1, Hf2.
  set (a := fresh _) in *. set (st := with_scores _ _).
  exists a, st. split_and!; [done..| | | | | |].
  - apply lookup_insert_eq.
  - done.
  - done.
  - done.
  - intros subj. unfold st. cbn [scores with_scores].
    by rewrite foldl_setdefault_lookup, lookup_empty.
  - intros a' Hne. by rewrite lookup_insert_ne.
Qed.

End RosterProperties.

(** ** Round trips and the invariant of the roster *)

Section RosterInvariant.

Context {interp : Interp}.

Lemma remove_student_eq index σ :
  remove_student index σ =
    (Ok (),
     if bool_decide (0 ≤ index < Z.of_nat (length (students (book σ))))%Z
     then {| book := {| subjects := subjects (book σ);
                        students := delete (Z.to_nat index)
                                      (students (book σ)) |};
             objs := objs σ |}
     else σ).
Proof.
  unfold remove_student, read_students, write_students, py_pop, lift.
  unfold mbind, M_bind, mret, M_ret. simpl.
  by case_bool_decide as Hin.
Qed.

Lemma well_formed_empty : well_formed empty_store.
Proof.
  split_and!.
  - split; [constructor|apply not_elem_of_nil].
  - by intros a ?%elem_of_nil.
  - by intros a subj ?%elem_of_nil.
  - intros a st subj v Hst. cbn in Hst. by rewrite lookup_empty in Hst.
Qed.

Lemma well_formed_set_score a subj v σ :
  is_Some (objs σ !! a) → well_formed σ →
  well_formed (snd (set_score a subj v σ)).
Proof.
  intros [st Hst] (Hu & Hd & Hc & Hf).
  destruct (py_float v) as [x|e] eqn:Hv.
  2: { rewrite (set_score_Raise _ _ _ _ _ Hv). by split_and!. }
  rewrite (set_score_Ok _ _ _ _ _ Hv). cbn [snd].
  rewrite (lookup_total_correct _ _ _ Hst). split_and!.
  - done.
  - intros b Hb. cbn [objs book]. destruct (decide (a = b)) as [->|Hne].
    + rewrite lookup_insert_eq. by eexists.
    + rewrite lookup_insert_ne by done. by apply Hd.
  - intros b s Hb Hs. cbn [objs book] in *.
    destruct (decide (a = b)) as [->|Hne].
    + rewrite lookup_total_insert_eq. cbn [scores with_scores].
      destruct (decide (subj = s)) as [->|Hne'].
      * rewrite lookup_insert_eq. by eexists.
      * rewrite lookup_insert_ne by done.
        specialize (Hc b s Hb Hs).
        by rewrite (lookup_total_correct _ _ _ Hst) in Hc.
    + rewrite lookup_total_insert_ne by done. by apply Hc.
  - intros b st' s w. cbn [objs]. destruct (decide (a = b)) as [->|Hne].
    + rewrite lookup_insert_eq. intros [= <-]. cbn [scores with_scores].
      destruct (decide (subj = s)) as [->|Hne'].
      * rewrite lookup_insert_eq. intros [= <-]. by eexists.
      * rewrite lookup_insert_ne by done. by apply (Hf b st).
    + rewrite lookup_insert_ne by done. apply Hf.
Qed.

Lemma well_formed_add_subject subj σ :
  well_formed σ → well_formed (snd (add_subject subj σ)).
Proof.
  intros (Hu & Hd & Hc & Hf).
  destruct (decide (subj = "")) as [He|Hne].
  { rewrite add_subject_skip by by left. by split_and!. }
  destruct (decide (subj ∈ subjects (book σ))) as [Hin|Hnin].
  { rewrite add_subject_skip by by right. by split_and!. }
  destruct (add_subject_new subj σ Hne Hnin) as (_ & H2 & H3 & H4 & H5).
  destruct Hu as [Hnd Hemp].
  set (σ' := snd (add_subject subj σ)) in *. split_and!.
  - unfold unique_subjects. rewrite H2. split.
    + apply NoDup_app. split_and!; [done| |apply NoDup_singleton].
      intros s Hs Hs'%list_elem_of_singleton. by subst s.
    + rewrite elem_of_app, list_elem_of_singleton. intros [?|?]; done.
  - intros a Ha. rewrite H3 in Ha. rewrite (H4 a Ha). by eexists.
  - intros a s Ha Hs. rewrite H3 in Ha. rewrite H2 in Hs.
    rewrite (lookup_total_correct _ _ _ (H4 a Ha)). cbn [scores with_scores].
    rewrite py_setdefault_lookup. case_decide; [by eexists|].
    apply Hc; [done|].
    apply elem_of_app in Hs as [?|?%list_elem_of_singleton]; [done|].
    congruence.
  - intros a st s w Hst. destruct (decide (a ∈ students (book σ))) as [Ha|Ha].
    + rewrite (H4 a Ha) in Hst. injection Hst as <-. cbn [scores with_scores].
      destruct (Hd a Ha) as [st0 Hst0].
      rewrite (lookup_total_correct _ _ _ Hst0).
      rewrite py_setdefault_lookup. case_decide.
      * intros [= <-]. destruct (scores st0 !! subj) as [w'|] eqn:Hw; simpl.
        -- by apply (Hf a st0 subj).
        -- by eexists.
      * by apply (Hf a st0).
    + rewrite (H5 a Ha) in Hst. by apply (Hf a st).
Qed.

Lemma well_formed_remove_subject subj σ :
  well_formed σ → well_formed (snd (remove_subject subj σ)).
Proof.
  intros (Hu & Hd & Hc & Hf).
  destruct (decide (subj ∈ subjects (book σ))) as [Hin|Hnin].
  2: { rewrite remove_subject_skip by done. by split_and!. }
  destruct (remove_subject_listed subj σ Hin) as (_ & H2 & H3 & H4 & H5).
  destruct Hu as [Hnd Hemp].
  destruct (py_remove_NoDup _ _ _ Hnd H2) as (Hnd' & Hgone & Hsub).
  set (σ' := snd (remove_subject subj σ)) in *. split_and!.
  - split; [done|]. intros ?%Hsub. tauto.
  - intros a Ha. rewrite H3 in Ha. rewrite (H4 a Ha). by eexists.
  - intros a s Ha [Hs Hne]%Hsub. rewrite H3 in Ha.
    rewrite (lookup_total_correct _ _ _ (H4 a Ha)). cbn [scores with_scores].
    rewrite lookup_delete_ne by done. by apply Hc.
  - intros a st s w Hst. destruct (decide (a ∈ students (book σ))) as [Ha|Ha].
    + rewrite (H4 a Ha) in Hst. injection Hst as <-. cbn [scores with_scores].
      destruct (Hd a Ha) as [st0 Hst0].
      rewrite (lookup_total_correct _ _ _ Hst0).
      intros [_ Hw]%lookup_delete_Some. by apply (Hf a st0 s).
    + rewrite (H5 a Ha) in Hst. by apply (Hf a st).
Qed.

Lemma well_formed_add_student n σ :
  well_formed σ → well_formed (snd (add_student n σ)).
Proof.
  intros (Hu & Hd & Hc & Hf). rewrite add_student_eq. cbn [snd].
  destruct (fresh_address σ) as [Hf1 Hf2]. cbn zeta in Hf1, Hf2.
  set (a := fresh _) in *. split_and!.
  - done.
  - intros b. cbn [book students objs].
    intros [Hb|Hb%list_elem_of_singleton]%elem_of_app.
    + rewrite lookup_insert_ne by (intros ->; done). by apply Hd.
    + subst b. rewrite lookup_insert_eq. by eexists.
  - intros b s. cbn [book students subjects objs].
    intros [Hb|Hb%list_elem_of_singleton]%elem_of_app Hs.
    + rewrite lookup_total_insert_ne by (intros ->; done). by apply Hc.
    + subst b. rewrite lookup_total_insert_eq. cbn [scores with_scores].
      rewrite foldl_setdefault_lookup, lookup_empty.
      rewrite bool_decide_true by done. by eexists.
  - intros b st s w. cbn [objs]. destruct (decide (a = b)) as [Heq|Hne].
    + subst b. rewrite lookup_insert_eq. intros [= <-].
      cbn [scores with_scores].
      rewrite foldl_setdefault_lookup, lookup_empty.
      case_bool_decide; [|done]. intros [= <-]. by eexists.
    + rewrite lookup_insert_ne by done. apply Hf.
Qed.

Lemma well_formed_remove_student index σ :
  well_formed σ → well_formed (snd (remove_student index σ)).
Proof.
  intros (Hu & Hd & Hc & Hf). rewrite remove_student_eq. cbn [snd].
  case_bool_decide; [|by split_and!]. split_and!.
  - done.
  - intros a Ha%list_elem_of_delete_inv. by apply Hd.
  - intros a s Ha%list_elem_of_delete_inv Hs. by apply Hc.
  - done.
Qed.

Lemma well_formed_run_call c σ :
  well_formed σ → well_formed (snd (run_call c σ)).
Proof.
  intros Hwf. destruct c as [subj|subj|n|index|a subj v]; simpl.
  - by apply well_formed_add_subject.
  - by apply well_formed_remove_subject.
  - unfold mbind, M_bind. pose proof (well_formed_add_student n σ Hwf) as H.
    rewrite add_student_eq in *. done.
  - by apply well_formed_remove_student.
  - case_bool_decide; [|done]. by apply well_formed_set_score.
Qed.

Lemma well_formed_run_calls cs : ∀ σ,
  well_formed σ → well_formed (run_calls cs σ).
Proof.
  induction cs as [|c cs IH]; intros σ Hwf; simpl; [done|].
  by apply IH, well_formed_run_call.
Qed.

Lemma well_formed_numeric σ : well_formed σ → numeric σ = true.
Proof.
  intros (_ & Hd & _ & Hf). unfold numeric. apply forallb_forall.
  intros a Ha%list_elem_of_In. apply forallb_forall. intros subj _.
  destruct (Hd a Ha) as [st Hst]. rewrite (lookup_total_correct _ _ _ Hst).
  unfold converts. destruct (scores st !! subj) as [w|] eqn:Hw; [|done].
  by destruct (Hf a st subj w Hst Hw) as [x ->].
Qed.

End RosterInvariant.

Section RosterRoundTrips.

Context {interp : Interp}.

(** X7. [add_student] followed by [remove_student] at the position of the
    new student, the last one, gives back the grade book: subjects and
    students lists are as before, and so is every object that was in the
    store. *)
Theorem add_student_then_remove_student n σ :
  let σ1 := snd (add_student n σ) in
  let σ2 := snd (remove_student (Z.of_nat (length (students (book σ)))) σ1) in
  fst (remove_student (Z.of_nat (length (students (book σ)))) σ1) = Ok () ∧
  book σ2 = book σ ∧
  ∀ a st, objs σ !! a = Some st → objs σ2 !! a = Some st.
Proof.
  simpl. rewrite add_student_eq, remove_student_eq.
  cbn [fst snd book students subjects objs].
  rewrite bool_decide_true by (rewrite length_app; simpl; lia).
  rewrite Nat2Z.id. cbn [book objs].
  split_and!; [done| |].
  - rewrite (delete_middle _ []), app_nil_r. by destruct (book σ).
  - intros a st Hst. rewrite lookup_insert_ne; [done|].
    intros <-. destruct (fresh_address σ) as [Hf _]. cbn zeta in Hf.
    congruence.
Qed.

(** X8. [add_subject] followed by [remove_subject] gives back the store,
    when the name is new to the roster and to the scores of every listed
    student, and every listed student is an object of the store. *)
Theorem add_subject_then_remove_subject subj σ :
  subj ≠ "" → subj ∉ subjects (book σ) → no_dangling σ →
  (∀ a, a ∈ students (book σ) → scores (objs σ !!! a) !! subj = None) →
  remove_subject subj (snd (add_subject subj σ)) = (Ok (), σ).
Proof.
  intros Hne Hnin Hd Hnew.
  destruct (add_subject_new subj σ Hne Hnin) as (_ & H2 & H3 & H4 & H5).
  set (σ1 := snd (add_subject subj σ)) in *.
  assert (Hin : subj ∈ subjects (book σ1)).
  { rewrite H2. apply elem_of_app. right. by left. }
  destruct (remove_subject_listed subj σ1 Hin) as (R1 & R2 & R3 & R4 & R5).
  destruct (remove_subject subj σ1) as [o σ2]. simpl in *. subst o.
  f_equal. rewrite H2, py_remove_last in R2 by done. injection R2 as R2.
  destruct σ as [[subjs studs] ob], σ2 as [[subjs2 studs2] ob2].
  simpl in *. subst subjs2. rewrite R3, H3. do 2 f_equal.
  apply map_eq. intros a. rewrite H3 in R4, R5.
  destruct (decide (a ∈ studs)) as [Ha|Ha].
  - destruct (Hd a Ha) as [st Hst]. simpl in Hst.
    assert (Hst' : ob !!! a = st) by by apply lookup_total_correct.
    specialize (Hnew a Ha). rewrite Hst' in Hnew.
    assert (Hst1 : objs σ1 !!! a =
                   with_scores st (<[subj := PyFloat 0]> (scores st))).
    { apply lookup_total_correct. rewrite (H4 a Ha), Hst'.
      unfold py_setdefault. by rewrite Hnew. }
    rewrite (R4 a Ha), Hst1, Hst. f_equal.
    change (with_scores st (delete subj (<[subj:=PyFloat 0]> (scores st))) = st).
    rewrite delete_insert_id by done. apply with_scores_id.
  - by rewrite (R5 a Ha), (H5 a Ha).
Qed.

(** X9. Whatever calls of [add_subject], [remove_subject], [add_student],
    [remove_student] and [set_score] are made on [GradeBook()], returning
    or raising, the roster stays well formed: no subject is listed twice
    or is the empty string, every listed student is an object, every
    listed student has a score for every subject, and every stored score
    is a float. *)
Theorem roster_built_by_calls_well_formed (cs : list call) :
  let σ := run_calls cs empty_store in
  NoDup (subjects (book σ)) ∧ ("" ∉ subjects (book σ)) ∧
  (∀ a, a ∈ students (book σ) →
     ∃ st, objs σ !! a = Some st ∧
           ∀ subj, subj ∈ subjects (book σ) →
                   ∃ x, scores st !! subj = Some (PyFloat x)) ∧
  (∀ a st subj v, objs σ !! a = Some st → scores st !! subj = Some v →
                  ∃ x, v = PyFloat x).
Proof.
  simpl.
  destruct (well_formed_run_calls cs empty_store well_formed_empty)
    as ([Hnd Hemp] & Hd & Hc & Hf).
  split_and!; [done|done| |done].
  intros a Ha. destruct (Hd a Ha) as [st Hst]. exists st. split; [done|].
  intros subj Hs. destruct (Hc a subj Ha Hs) as [w Hw].
  rewrite (lookup_total_correct _ _ _ Hst) in Hw.
  destruct (Hf a st subj w Hst Hw) as [x ->]. by exists x.
Qed.

(** X10. [recalculate] never raises on a roster built from [GradeBook()]
    by calls of the methods of model.py: it returns one dictionary per
    listed student, in order, and the store is as before. *)
Theorem recalculate_accepts_built_rosters (cs : list call) :
  let σ := run_calls cs empty_store in
  ∃ rs, recalculate σ = (Ok rs, σ) ∧
        r_student <$> rs = students (book σ).
Proof.
  simpl. set (σ := run_calls cs empty_store).
  assert (Hnum : numeric σ = true).
  { apply well_formed_numeric, well_formed_run_calls, well_formed_empty. }
  destruct (recalculate_fields σ Hnum) as (rs & Hrs & Hf).
  exists rs. split.
  - pose proof (stateless_recalculate σ) as Hs.
    destruct (recalculate σ) as [o σ']. simpl in *. by subst.
  - clear Hrs. induction Hf as [|a d l k Hsame _ IH]; [done|].
    by rewrite fmap_cons, IH, (same_fields_student _ _ Hsame).
Qed.

End RosterRoundTrips.

(** * Further properties of grades and ranks *)

Section OrderFacts.

Lemma ltb_trans x y z :
  PrimFloat.ltb x y = true → PrimFloat.ltb y z = true →
  PrimFloat.ltb x z = true.
Proof.
  rewrite !ltb_fcmp. intros Hxy Hyz.
  apply (SFcompare_trans _ _ _ _ _ Hxy Hyz); done.
Qed.

Lemma leb_trans x y z :
  PrimFloat.leb x y = true → PrimFloat.leb y z = true →
  PrimFloat.leb x z = true.
Proof.
  rewrite !leb_fcmp. unfold fcmp.
  intros [Hxy|Hxy] [Hyz|Hyz];
    pose proof (SFcompare_trans _ _ _ _ _ Hxy Hyz) as H; simpl in H;
    [left|left|left|right]; by apply H.
Qed.

Lemma leb_nan_r x y : PrimFloat.is_nan y = true → PrimFloat.leb x y = false.
Proof.
  intros Hy. apply not_true_is_false. rewrite leb_fcmp. unfold fcmp.
  intros H. assert (Hn : PrimFloat.is_nan y = false); [|congruence].
  apply is_nan_fcmp. destruct H as [H|H]; by eapply SFcompare_Some_r.
Qed.

Lemma count_gt_zero t l :
  count_gt t l = 0 ↔ Forall (λ x, PrimFloat.ltb t x = false) l.
Proof.
  split; [|apply count_gt_none].
  induction l as [|x l IH]; [constructor|].
  rewrite count_gt_cons. destruct (PrimFloat.ltb t x) eqn:Hx; [done|].
  intros H. constructor; [done|]. by apply IH.
Qed.

(** A total below another has more totals above it. *)
Lemma count_gt_strict t t' l :
  t ∈ l → PrimFloat.ltb t' t = true → count_gt t l < count_gt t' l.
Proof.
  intros Hin Hlt.
  assert (Hmono : ∀ k, count_gt t k ≤ count_gt t' k).
  { induction k as [|x k IH]; [done|]. rewrite !count_gt_cons.
    destruct (PrimFloat.ltb t x) eqn:Hx.
    - rewrite (ltb_trans t' t x Hlt Hx). lia.
    - destruct (PrimFloat.ltb t' x); lia. }
  induction l as [|x l IH]; [by apply elem_of_nil in Hin|].
  rewrite !count_gt_cons. apply elem_of_cons in Hin as [<-|Hin].
  - rewrite ltb_irrefl, Hlt. specialize (Hmono l). lia.
  - specialize (IH Hin). destruct (PrimFloat.ltb t x) eqn:Hx.
    + rewrite (ltb_trans t' t x Hlt Hx). lia.
    + destruct (PrimFloat.ltb t' x); lia.
Qed.

(** A list of ordered totals that is not empty has a greatest entry. *)
Lemma greatest_total l :
  l ≠ [] → no_nan l → ∃ m, m ∈ l ∧ count_gt m l = 0.
Proof.
  induction l as [|x l IH]; [done|]. intros _ Hn.
  apply Forall_cons in Hn as [Hx Hn].
  destruct l as [|y l].
  { exists x. split; [by left|]. by rewrite count_gt_cons, ltb_irrefl. }
  destruct (IH ltac:(done) Hn) as (m & Hm & Hc).
  apply count_gt_zero in Hc. rewrite Forall_forall in Hc.
  destruct (PrimFloat.ltb m x) eqn:Hmx.
  - exists x. split; [by left|].
    rewrite count_gt_cons, ltb_irrefl. apply count_gt_zero, Forall_forall.
    intros z Hz. apply not_true_is_false. intros Hxz.
    pose proof (Hc z Hz) as Hmz. simpl in Hmz.
    by rewrite (ltb_trans m x z Hmx Hxz) in Hmz.
  - exists m. split; [by right|].
    rewrite count_gt_cons, Hmx. apply count_gt_zero, Forall_forall.
    intros z Hz. by apply Hc.
Qed.

End OrderFacts.

Section GradesAndRanks.

Context {interp : Interp}.

(** X11. On a numeric roster with ordered totals, a student with a greater
    total has a smaller rank number. *)
Theorem recalculate_rank_decreases_with_total σ :
  numeric σ = true → ordered_totals σ = true →
  ∃ rs, fst (recalculate σ) = Ok rs ∧
    ∀ d d', d ∈ rs → d' ∈ rs →
      PrimFloat.ltb (r_total d') (r_total d) = true →
      ∃ r r', r_rank d = Some r ∧ r_rank d' = Some r' ∧ (r < r')%Z.
Proof.
  intros Hnum Hord. rewrite (recalculate_ranked σ Hnum Hord).
  eexists. split; [reflexivity|].
  intros d d' (a & -> & Ha)%list_elem_of_fmap (a' & -> & Ha')%list_elem_of_fmap.
  simpl. intros Hlt. eexists _, _. split_and!; [done..|].
  assert (total_of σ a ∈ total_of σ <$> students (book σ)).
  { apply list_elem_of_fmap. by exists a. }
  pose proof (count_gt_strict _ _ _ H Hlt). lia.
Qed.

(** X12. On a numeric roster with ordered totals and at least one student,
    some student has rank 1, and no student has a total above that
    student's. *)
Theorem recalculate_rank_one_is_greatest σ :
  numeric σ = true → ordered_totals σ = true → students (book σ) ≠ [] →
  ∃ rs, fst (recalculate σ) = Ok rs ∧
    ∃ d, d ∈ rs ∧ r_rank d = Some 1%Z ∧
         ∀ d', d' ∈ rs → PrimFloat.ltb (r_total d) (r_total d') = false.
Proof.
  intros Hnum Hord Hne. rewrite (recalculate_ranked σ Hnum Hord).
  eexists. split; [reflexivity|].
  set (T := total_of σ <$> students (book σ)).
  destruct (greatest_total T) as (m & Hm & Hc).
  { unfold T. by destruct (students (book σ)). }
  { by apply ordered_totals_no_nan. }
  apply list_elem_of_fmap in Hm as (a & -> & Ha).
  eexists. split; [apply list_elem_of_fmap; by exists a|].
  simpl. fold T. rewrite Hc. split; [done|].
  intros d' (a' & -> & Ha')%list_elem_of_fmap. simpl.
  apply count_gt_zero in Hc. rewrite Forall_forall in Hc. apply Hc.
  apply list_elem_of_fmap. by exists a'.
Qed.

Lemma total_of_ext σ σ' a :
  objs σ' = objs σ → subjects (book σ') = subjects (book σ) →
  total_of σ' a = total_of σ a.
Proof. unfold total_of. by intros -> ->. Qed.

Lemma result_of_ext σ σ' a :
  objs σ' = objs σ → subjects (book σ') = subjects (book σ) →
  result_of σ' a = result_of σ a.
Proof.
  intros Ho Hs. unfold result_of, avg_of.
  by rewrite (total_of_ext σ σ' a Ho Hs), Hs.
Qed.

(** X13. On a roster on which [recalculate] returns (a numeric one) and
    none of whose totals is NaN, the dictionary of a student does not
    depend on the order of the students list: listing the same students in
    another order gives every student the same total, average, grade and
    rank. *)
Theorem recalculate_students_order σ σ' :
  objs σ' = objs σ → subjects (book σ') = subjects (book σ) →
  students (book σ') ≡ₚ students (book σ) →
  numeric σ = true → ordered_totals σ = true →
  ∃ g : addr → ResultDict,
    fst (recalculate σ) = Ok (g <$> students (book σ)) ∧
    fst (recalculate σ') = Ok (g <$> students (book σ')).
Proof.
  intros Ho Hs Hp Hnum Hord.
  assert (Hnum' : numeric σ' = true).
  { unfold numeric in *. rewrite forallb_forall in Hnum |- *.
    intros a Ha%list_elem_of_In. rewrite Ho, Hs. apply Hnum.
    apply list_elem_of_In. by rewrite <-Hp. }
  assert (Hord' : ordered_totals σ' = true).
  { unfold ordered_totals in *. rewrite forallb_forall in Hord |- *.
    intros a Ha%list_elem_of_In. rewrite (total_of_ext σ σ' a Ho Hs).
    apply Hord. apply list_elem_of_In. by rewrite <-Hp. }
  rewrite (recalculate_ranked σ Hnum Hord), (recalculate_ranked σ' Hnum' Hord').
  eexists. split; [reflexivity|]. f_equal. apply list_fmap_ext.
  intros _ a _. rewrite (result_of_ext σ σ' a Ho Hs).
  rewrite (total_of_ext σ σ' a Ho Hs). do 4 f_equal.
  apply count_gt_perm.
  rewrite Hp. rewrite (list_fmap_ext (total_of σ') (total_of σ)); [done|].
  intros _ b _. by apply total_of_ext.
Qed.

(** X14. A greater average never gets a worse grade: if [a <= b], an A for
    [a] means an A for [b], a B means an A or a B, a C means an A, a B or
    a C, and a D means that [b] does not get an F. *)
Theorem grade_from_avg_monotone (a b : float) :
  PrimFloat.leb a b = true →
  (grade_from_avg a = "A" → grade_from_avg b = "A") ∧
  (grade_from_avg a = "B" →
     grade_from_avg b = "A" ∨ grade_from_avg b = "B") ∧
  (grade_from_avg a = "C" →
     grade_from_avg b = "A" ∨ grade_from_avg b = "B" ∨
     grade_from_avg b = "C") ∧
  (grade_from_avg a = "D" → grade_from_avg b ≠ "F").
Proof.
  intros Hab.
  assert (Hup : ∀ c, PrimFloat.leb c a = true → PrimFloat.leb c b = true).
  { intros c Hc. by apply (leb_trans c a b). }
  unfold grade_from_avg.
  destruct (PrimFloat.leb 90 a) eqn:A90.
  { rewrite (Hup _ A90). by split_and!. }
  destruct (PrimFloat.leb 80 a) eqn:A80.
  { rewrite (Hup _ A80). destruct (PrimFloat.leb 90 b); split_and!; auto; done. }
  destruct (PrimFloat.leb 70 a) eqn:A70.
  { rewrite (Hup _ A70).
    destruct (PrimFloat.leb 90 b), (PrimFloat.leb 80 b); split_and!; auto; done. }
  destruct (PrimFloat.leb 60 a) eqn:A60.
  { rewrite (Hup _ A60).
    destruct (PrimFloat.leb 90 b), (PrimFloat.leb 80 b), (PrimFloat.leb 70 b);
      split_and!; auto; done. }
  by split_and!.
Qed.

(** X15. An average that is not a number gets an F: every comparison of
    [grade_from_avg] fails on it. *)
Theorem grade_from_avg_nan (avg : float) :
  PrimFloat.is_nan avg = true → grade_from_avg avg = "F".
Proof.
  intros Hn. unfold grade_from_avg. by rewrite !leb_nan_r.
Qed.

End GradesAndRanks.

(** * The ranking of gui.py *)

Section GuiRanking.

Lemma gui_build_rank_map_lookup l : ∀ k m,
  NoDup (fst <$> l) →
  (∀ i p, l !! i = Some p →
     Gui.build_rank_map l k m !! p.1 = Some (k + Z.of_nat i + 1)%Z) ∧
  (∀ r, r ∉ fst <$> l → Gui.build_rank_map l k m !! r = m !! r).
Proof.
  induction l as [|[r0 t0] l IH]; intros k m Hnd; simpl.
  { split; [by intros i p ?|done]. }
  rewrite fmap_cons in Hnd. apply NoDup_cons in Hnd as [Hr0 Hnd].
  destruct (IH (k + 1)%Z (<[r0 := (k + 1)%Z]> m) Hnd) as [IH1 IH2].
  split.
  - intros [|i] p Hp; simpl in Hp.
    + injection Hp as <-. simpl. rewrite (IH2 r0 Hr0), lookup_insert_eq.
      f_equal. lia.
    + rewrite (IH1 i p Hp). f_equal. lia.
  - intros r [Hne Hr]%not_elem_of_cons. rewrite (IH2 r Hr).
    by rewrite lookup_insert_ne.
Qed.

Lemma gui_rows_fst (T : list float) :
  fst <$> imap (λ r total, (r, total)) T = seq 0 (length T).
Proof.
  apply list_eq. intros i. rewrite list_lookup_fmap, list_lookup_imap.
  destruct (T !! i) as [t|] eqn:Hi; simpl.
  - symmetry. apply lookup_seq. split; [done|]. by eapply lookup_lt_Some.
  - symmetry. apply lookup_seq_ge. by apply lookup_ge_None.
Qed.

Lemma gui_rows_snd (T : list float) :
  snd <$> imap (λ r total, (r, total)) T = T.
Proof.
  apply list_eq. intros i. rewrite list_lookup_fmap, list_lookup_imap.
  by destruct (T !! i).
Qed.

Lemma gui_rows_elem (T : list float) p :
  p ∈ imap (λ r total, (r, total)) T → T !! p.1 = Some p.2.
Proof.
  intros [i Hi]%list_elem_of_lookup. rewrite list_lookup_imap in Hi.
  destruct (T !! i) as [t|] eqn:Ht; simpl in Hi; [|done].
  by injection Hi as <-.
Qed.

(** The rank written for the row at position [k] of the sorted list is
    [k + 1]. *)
Lemma gui_rank_of_sorted_row (T : list float) k p :
  sorted_desc snd (imap (λ r total, (r, total)) T) !! k = Some p →
  p.1 < length T ∧
  Gui.recalculate_all_ranks T !! p.1 = Some (Some (Z.of_nat k + 1)%Z).
Proof.
  intros Hk. unfold Gui.recalculate_all_ranks.
  set (srt := sorted_desc snd _) in *.
  assert (Hperm : fst <$> srt ≡ₚ seq 0 (length T)).
  { unfold srt. by rewrite sorted_desc_perm, gui_rows_fst. }
  assert (Hnd : NoDup (fst <$> srt)) by (rewrite Hperm; apply NoDup_seq).
  assert (Hlt : p.1 < length T).
  { assert (Hin : p.1 ∈ fst <$> srt).
    { apply list_elem_of_fmap. exists p. split; [done|].
      by eapply list_elem_of_lookup_2. }
    rewrite Hperm in Hin. apply elem_of_seq in Hin. lia. }
  split; [done|]. rewrite list_lookup_fmap, lookup_seq_lt by done. simpl.
  destruct (gui_build_rank_map_lookup srt 0 ∅ Hnd) as [H1 _].
  by rewrite (H1 k p Hk), Z.add_0_l.
Qed.

End GuiRanking.

Section GuiProperties.

Context {interp : Interp}.

(** X16. The ranking of [recalculate_all] never gives two rows one rank:
    whatever the totals, tied or not, the ranks written are the numbers
    1 to the number of rows, each of them once. *)
Theorem gui_ranks_are_one_to_n (T : list float) :
  Gui.recalculate_all_ranks T ≡ₚ
    (λ k, Some (Z.of_nat k + 1)%Z) <$> seq 0 (length T).
Proof.
  set (srt := sorted_desc snd (imap (λ r total, (r, total)) T)).
  assert (Hlen : length srt = length T).
  { unfold srt. by rewrite sorted_desc_length, length_imap. }
  assert (Hperm : fst <$> srt ≡ₚ seq 0 (length T)).
  { unfold srt. by rewrite sorted_desc_perm, gui_rows_fst. }
  assert (Heq : Gui.recalculate_all_ranks T
                = (λ r, default None (Gui.recalculate_all_ranks T !! r))
                  <$> seq 0 (length T)).
  { apply list_eq. intros i. rewrite list_lookup_fmap.
    unfold Gui.recalculate_all_ranks at 1. rewrite list_lookup_fmap.
    destruct (seq 0 (length T) !! i) as [r|] eqn:Hr; simpl; [|done].
    apply lookup_seq in Hr as [-> Hr]. simpl.
    unfold Gui.recalculate_all_ranks.
    by rewrite list_lookup_fmap, lookup_seq_lt. }
  assert (Hsrt : (λ r, default None (Gui.recalculate_all_ranks T !! r))
                   <$> (fst <$> srt)
                 = (λ k, Some (Z.of_nat k + 1)%Z) <$> seq 0 (length T)).
  { rewrite <-Hlen. apply list_eq. intros k. rewrite !list_lookup_fmap.
    destruct (srt !! k) as [p|] eqn:Hk; simpl.
    - rewrite lookup_seq_lt by by eapply lookup_lt_Some. simpl.
      destruct (gui_rank_of_sorted_row T k p Hk) as [_ ->]. done.
    - rewrite lookup_seq_ge; [done|]. by apply lookup_ge_None. }
  rewrite Heq, <-Hsrt. by rewrite Hperm.
Qed.

(** X17. Where no two students have equal totals, the ranking of
    [recalculate_all] and the one of [recalculate] agree: on a numeric
    roster with ordered, pairwise different totals, the ranks that
    [recalculate_all] computes from the totals are the ranks of the
    dictionaries of [recalculate]. *)
Theorem gui_ranking_agrees_without_ties σ :
  numeric σ = true → ordered_totals σ = true →
  (∀ i j a b, i ≠ j →
     students (book σ) !! i = Some a → students (book σ) !! j = Some b →
     PrimFloat.eqb (total_of σ a) (total_of σ b) = false) →
  ∃ rs, fst (recalculate σ) = Ok rs ∧
        Gui.recalculate_all_ranks (r_total <$> rs) = r_rank <$> rs.
Proof.
  intros Hnum Hord Hdist. rewrite (recalculate_ranked σ Hnum Hord).
  eexists. split; [reflexivity|].
  set (studs := students (book σ)) in *.
  set (T := total_of σ <$> studs).
  rewrite <-!list_fmap_compose.
  change (Gui.recalculate_all_ranks T =
          (λ a, Some (1 + Z.of_nat (count_gt (total_of σ a) T))%Z) <$> studs).
  assert (Hn : no_nan T) by by apply ordered_totals_no_nan.
  set (srt := sorted_desc snd (imap (λ r total, (r, total)) T)).
  set (S := snd <$> srt).
  assert (HS : S ≡ₚ T).
  { unfold S, srt. by rewrite sorted_desc_perm, gui_rows_snd. }
  assert (HnS : no_nan S) by (unfold no_nan; by rewrite HS).
  assert (Hdesc : descending S).
  { unfold S, srt. apply sorted_desc_descending. by rewrite gui_rows_snd. }
  assert (Hrows : ∀ k p, srt !! k = Some p → T !! p.1 = Some p.2).
  { intros k p Hk. apply gui_rows_elem.
    rewrite <-(sorted_desc_perm snd). by eapply list_elem_of_lookup_2. }
  assert (Hnd : NoDup (fst <$> srt)).
  { unfold srt. rewrite sorted_desc_perm, gui_rows_fst. apply NoDup_seq. }
  assert (Hnan : ∀ k x, S !! k = Some x → PrimFloat.is_nan x = false).
  { intros k x Hx. unfold no_nan in HnS. rewrite Forall_forall in HnS.
    by eapply HnS, list_elem_of_lookup_2. }
  (* the position of a row in the sorted list is the number of totals
     above its own *)
  assert (Hpos : ∀ k p, srt !! k = Some p → count_gt p.2 T = k).
  { intros k p Hk. rewrite <-(count_gt_perm _ _ _ HS).
    assert (HSk : S !! k = Some p.2) by (unfold S; by rewrite list_lookup_fmap, Hk).
    destruct (decide (count_gt p.2 S = k)) as [|Hne]; [done|exfalso].
    assert (Hlt : count_gt p.2 S < k).
    { destruct (decide (k < count_gt p.2 S)) as [Hk'|]; [|lia].
      apply (descending_prefix_gt S p.2 k p.2 HnS Hdesc HSk) in Hk'.
      by rewrite ltb_irrefl in Hk'. }
    destruct (lookup_lt_is_Some_2 srt (count_gt p.2 S)) as [q Hq].
    { apply lookup_lt_Some in Hk. lia. }
    assert (HSq : S !! count_gt p.2 S = Some q.2).
    { change ((snd <$> srt) !! count_gt p.2 S = Some q.2).
      by rewrite list_lookup_fmap, Hq. }
    assert (H1 : PrimFloat.ltb p.2 q.2 = false).
    { apply not_true_is_false.
      rewrite <-(descending_prefix_gt S p.2 _ q.2 HnS Hdesc HSq). lia. }
    assert (H2 : PrimFloat.ltb q.2 p.2 = false).
    { by apply (descending_lookup S (count_gt p.2 S) k). }
    assert (He : PrimFloat.eqb q.2 p.2 = true).
    { destruct (PrimFloat.eqb q.2 p.2) eqn:He; [done|].
      rewrite (ltb_connex q.2 p.2) in H1; [done|by eapply Hnan..|done|done]. }
    assert (Hrow : q.1 ≠ p.1).
    { intros Heq. apply Hne.
      apply (NoDup_lookup (fst <$> srt) _ _ q.1 Hnd).
      - by rewrite list_lookup_fmap, Hq.
      - by rewrite list_lookup_fmap, Hk, Heq. }
    pose proof (Hrows _ _ Hq) as Tq. pose proof (Hrows _ _ Hk) as Tp.
    unfold T in Tq, Tp. rewrite list_lookup_fmap in Tq, Tp.
    destruct (studs !! q.1) as [a|] eqn:Ha; [|done].
    destruct (studs !! p.1) as [b|] eqn:Hb; [|done].
    simpl in Tq, Tp. injection Tq as Tq. injection Tp as Tp.
    rewrite <-Tq, <-Tp, (Hdist q.1 p.1 a b Hrow Ha Hb) in He. done. }
  apply list_eq. intros r. rewrite list_lookup_fmap.
  destruct (studs !! r) as [a|] eqn:Ha; simpl.
  - assert (Hr : r ∈ fst <$> srt).
    { unfold srt. rewrite sorted_desc_perm, gui_rows_fst.
      apply elem_of_seq. apply lookup_lt_Some in Ha.
      unfold T. rewrite length_fmap. lia. }
    apply list_elem_of_fmap in Hr as (p & -> & [k Hk]%list_elem_of_lookup).
    destruct (gui_rank_of_sorted_row T k p Hk) as [_ ->].
    pose proof (Hrows _ _ Hk) as Tp. unfold T in Tp.
    rewrite list_lookup_fmap, Ha in Tp. simpl in Tp. injection Tp as Tp.
    rewrite Tp, (Hpos k p Hk). do 2 f_equal. lia.
  - unfold Gui.recalculate_all_ranks. rewrite list_lookup_fmap.
    rewrite lookup_seq_ge; [done|].
    apply lookup_ge_None in Ha. unfold T. by rewrite length_fmap.
Qed.

End GuiProperties.

(** * Recalculating after a change of one score *)

Section Recalculating.

Context {interp : Interp}.

Lemma numeric_set_score a subj v x σ :
  py_float v = Ok x → numeric σ = true →
  numeric (snd (set_score a subj v σ)) = true.
Proof.
  intros Hv Hnum. rewrite (set_score_Ok _ _ _ _ _ Hv). cbn [snd].
  unfold numeric in *. cbn [book objs subjects students].
  rewrite forallb_forall in Hnum |- *. intros b Hb.
  specialize (Hnum b Hb). rewrite forallb_forall in Hnum |- *.
  intros s Hs. specialize (Hnum s Hs). unfold converts in *.
  destruct (decide (a = b)) as [->|Hne].
  - rewrite lookup_total_insert_eq. cbn [scores with_scores].
    destruct (decide (subj = s)) as [->|Hne'].
    + by rewrite lookup_insert_eq.
    + by rewrite lookup_insert_ne.
  - by rewrite lookup_total_insert_ne.
Qed.

(** X19. Changing one score of one student leaves the other students'
    totals, averages and grades as they were: after a [set_score] that
    returns, [recalculate] gives every other student a dictionary with the
    same total, average and grade as before (the rank may change). *)
Theorem set_score_keeps_other_students a subj v x σ :
  py_float v = Ok x → numeric σ = true →
  let σ' := snd (set_score a subj v σ) in
  ∃ rs rs',
    fst (recalculate σ) = Ok rs ∧ fst (recalculate σ') = Ok rs' ∧
    length rs' = length rs ∧
    ∀ i d d', rs !! i = Some d → rs' !! i = Some d' →
      r_student d' = r_student d ∧
      (r_student d ≠ a →
         r_total d' = r_total d ∧ r_avg d' = r_avg d ∧
         r_grade d' = r_grade d).
Proof.
  intros Hv Hnum. simpl.
  pose proof (numeric_set_score a subj v x σ Hv Hnum) as Hnum'.
  destruct (recalculate_fields σ Hnum) as (rs & Hrs & Hf).
  destruct (recalculate_fields _ Hnum') as (rs' & Hrs' & Hf').
  exists rs, rs'. split_and!; [done|done| |].
  - apply Forall2_length in Hf, Hf'. rewrite <-Hf, <-Hf'.
    by rewrite (set_score_Ok _ _ _ _ _ Hv).
  - intros i d d' Hd Hd'.
    destruct (Forall2_lookup_r _ _ _ _ _ Hf Hd) as (b & Hb & Hsame).
    destruct (Forall2_lookup_r _ _ _ _ _ Hf' Hd') as (b' & Hb' & Hsame').
    rewrite (set_score_Ok _ _ _ _ _ Hv) in Hb'. cbn [snd book students] in Hb'.
    assert (b' = b) as -> by congruence.
    rewrite (same_fields_student _ _ Hsame), (same_fields_student _ _ Hsame').
    split; [done|]. simpl. intros Hne.
    rewrite (same_fields_total _ _ Hsame), (same_fields_total _ _ Hsame').
    rewrite (same_fields_avg _ _ Hsame), (same_fields_avg _ _ Hsame').
    rewrite (same_fields_grade _ _ Hsame), (same_fields_grade _ _ Hsame').
    assert (Ht : total_of (snd (set_score a subj v σ)) b = total_of σ b).
    { rewrite (set_score_Ok _ _ _ _ _ Hv). unfold total_of.
      cbn [snd book objs subjects]. by rewrite lookup_total_insert_ne. }
    assert (Ha : avg_of (snd (set_score a subj v σ)) b = avg_of σ b).
    { unfold avg_of. rewrite Ht. by rewrite (set_score_Ok _ _ _ _ _ Hv). }
    simpl. by rewrite Ht, Ha.
Qed.

End Recalculating.

(** * Instances of the further properties *)

Section MoreWitnesses.

#[local] Existing Instance rejecting.


Lemma set_score_raises_unchanged_witness :
  py_float (PyInt (10 ^ 400)) = Raise OverflowError ∧
  set_score 0 "math" (PyInt (10 ^ 400)) roster_tie
    = (Raise OverflowError, roster_tie).
Proof.
  assert (py_float (PyInt (10 ^ 400)) = Raise OverflowError) as Hv
    by (vm_compute; reflexivity).
  split; [exact Hv|].
  exact (proj1 (set_score_raises_unchanged 0 "math" (PyInt (10 ^ 400))
                  OverflowError roster_tie Hv)).
Defined.

Lemma add_subject_twice_witness :
  ("math" = "" ∨ "math" ∈ subjects (book roster_tie)) ∧
  add_subject "math" roster_tie = (Ok (), roster_tie).
Proof.
  assert (H : "math" = "" ∨ "math" ∈ subjects (book roster_tie)).
  { right. by left. }
  split; [exact H|]. exact (proj1 (add_subject_twice "math" roster_tie) H).
Defined.

Lemma add_subject_new_subject_witness :
  "art" ≠ "" ∧ ("art" ∉ subjects (book roster_tie)) ∧
  subjects (book (snd (add_subject "art" roster_tie))) = ["math"; "art"] ∧
  scores (objs (snd (add_subject "art" roster_tie)) !!! 1) !! "art"
    = Some (PyFloat 0).
Proof.
  assert (H1 : "art" ≠ "") by discriminate.
  assert (H2 : "art" ∉ subjects (book roster_tie)).
  { intros [E|E]%elem_of_cons; [discriminate E|by apply elem_of_nil in E]. }
  split; [exact H1|]. split; [exact H2|].
  pose proof (add_subject_new_subject "art" roster_tie H1 H2)
    as (_ & H3 & _ & H4 & _).
  split; [exact H3|].
  destruct (H4 1) as [H5 _]; [right; by left|]. exact H5.
Defined.

Lemma remove_subject_effect_witness :
  ("math" ∈ subjects (book roster_alias)) ∧
  NoDup (subjects (book roster_alias)) ∧
  ("math" ∉ subjects (book (snd (remove_subject "math" roster_alias)))) ∧
  ("gym" ∉ subjects (book roster_alias)) ∧
  snd (remove_subject "gym" roster_alias) = roster_alias.
Proof.
  assert (H1 : "math" ∈ subjects (book roster_alias)) by by left.
  assert (H2 : NoDup (subjects (book roster_alias))).
  { apply (bool_decide_unpack _). reflexivity. }
  assert (H3 : "gym" ∉ subjects (book roster_alias)).
  { apply (bool_decide_unpack _). reflexivity. }
  pose proof (remove_subject_effect "math" roster_alias) as (_ & _ & _ & H4).
  pose proof (remove_subject_effect "gym" roster_alias) as (_ & _ & H5 & _).
  split; [exact H1|]. split; [exact H2|].
  split; [exact (proj1 (proj2 (H4 H1)) H2)|].
  split; [exact H3|exact (H5 H3)].
Defined.

Lemma add_subject_then_remove_subject_witness :
  "art" ≠ "" ∧ ("art" ∉ subjects (book roster_tie)) ∧
  no_dangling roster_tie ∧
  (∀ a, a ∈ students (book roster_tie) →
        scores (objs roster_tie !!! a) !! "art" = None) ∧
  remove_subject "art" (snd (add_subject "art" roster_tie))
    = (Ok (), roster_tie).
Proof.
  assert (H1 : "art" ≠ "") by discriminate.
  assert (H2 : "art" ∉ subjects (book roster_tie)).
  { apply (bool_decide_unpack _). reflexivity. }
  assert (H3 : no_dangling roster_tie).
  { intros a Ha. simpl in Ha.
    repeat (apply elem_of_cons in Ha as [->|Ha]);
      [by eexists..|by apply elem_of_nil in Ha]. }
  assert (H4 : ∀ a, a ∈ students (book roster_tie) →
                    scores (objs roster_tie !!! a) !! "art" = None).
  { intros a Ha. simpl in Ha.
    repeat (apply elem_of_cons in Ha as [->|Ha]);
      [reflexivity..|by apply elem_of_nil in Ha]. }
  split; [exact H1|]. split; [exact H2|]. split; [exact H3|].
  split; [exact H4|].
  exact (add_subject_then_remove_subject "art" roster_tie H1 H2 H3 H4).
Defined.

Lemma recalculate_rank_decreases_with_total_witness :
  numeric roster_distinct = true ∧ ordered_totals roster_distinct = true ∧
  ∃ rs, fst (recalculate roster_distinct) = Ok rs ∧
        r_rank <$> rs = [Some 3; Some 2; Some 1]%Z.
Proof.
  split; [reflexivity|]. split; [reflexivity|].
  destruct (recalculate_rank_decreases_with_total roster_distinct
              eq_refl eq_refl) as (rs & Hrs & _).
  exists rs. split; [exact Hrs|].
  vm_compute in Hrs. by injection Hrs as <-.
Defined.

Lemma recalculate_rank_one_is_greatest_witness :
  numeric roster_tie = true ∧ ordered_totals roster_tie = true ∧
  students (book roster_tie) ≠ [] ∧
  ∃ rs, fst (recalculate roster_tie) = Ok rs ∧
        ∃ d, d ∈ rs ∧ r_rank d = Some 1%Z.
Proof.
  split; [reflexivity|]. split; [reflexivity|]. split; [discriminate|].
  destruct (recalculate_rank_one_is_greatest roster_tie eq_refl eq_refl
              ltac:(discriminate)) as (rs & Hrs & d & Hd & Hr & _).
  exists rs. split; [exact Hrs|]. exists d. split; [exact Hd|exact Hr].
Defined.

Lemma recalculate_students_order_witness :
  objs roster_distinct_reversed = objs roster_distinct ∧
  subjects (book roster_distinct_reversed) = subjects (book roster_distinct) ∧
  students (book roster_distinct_reversed) ≡ₚ students (book roster_distinct) ∧
  numeric roster_distinct = true ∧ ordered_totals roster_distinct = true ∧
  ∃ g : addr → ResultDict,
    fst (recalculate roster_distinct) = Ok [g 0; g 1; g 2] ∧
    fst (recalculate roster_distinct_reversed) = Ok [g 2; g 1; g 0].
Proof.
  assert (Hp : students (book roster_distinct_reversed)
               ≡ₚ students (book roster_distinct)).
  { simpl. symmetry. apply (Permutation_rev [0; 1; 2]). }
  split; [reflexivity|]. split; [reflexivity|]. split; [exact Hp|].
  split; [reflexivity|]. split; [reflexivity|].
  exact (recalculate_students_order roster_distinct roster_distinct_reversed
           eq_refl eq_refl Hp eq_refl eq_refl).
Defined.

Lemma grade_from_avg_monotone_witness :
  PrimFloat.leb 85 92 = true ∧
  (grade_from_avg 85 = "B" → grade_from_avg 92 = "A" ∨ grade_from_avg 92 = "B").
Proof.
  split; [reflexivity|].
  exact (proj1 (proj2 (grade_from_avg_monotone 85 92 eq_refl))).
Defined.

Lemma grade_from_avg_nan_witness :
  PrimFloat.is_nan PrimFloat.nan = true ∧ grade_from_avg PrimFloat.nan = "F".
Proof.
  split; [reflexivity|]. exact (grade_from_avg_nan PrimFloat.nan eq_refl).
Defined.

Lemma gui_ranking_agrees_without_ties_witness :
  numeric roster_distinct = true ∧ ordered_totals roster_distinct = true ∧
  (∀ i j a b, i ≠ j →
     students (book roster_distinct) !! i = Some a →
     students (book roster_distinct) !! j = Some b →
     PrimFloat.eqb (total_of roster_distinct a) (total_of roster_distinct b)
       = false) ∧
  ∃ rs, fst (recalculate roster_distinct) = Ok rs ∧
        Gui.recalculate_all_ranks (r_total <$> rs) = r_rank <$> rs.
Proof.
  assert (H : ∀ i j a b, i ≠ j →
     students (book roster_distinct) !! i = Some a →
     students (book roster_distinct) !! j = Some b →
     PrimFloat.eqb (total_of roster_distinct a) (total_of roster_distinct b)
       = false).
  { intros i j a b Hne Ha Hb. simpl in Ha, Hb.
    destruct i as [|[|[|i]]], j as [|[|[|j]]]; simpl in Ha, Hb;
      try discriminate; try (by destruct Hne);
      injection Ha as <-; injection Hb as <-; reflexivity. }
  split; [reflexivity|]. split; [reflexivity|]. split; [exact H|].
  exact (gui_ranking_agrees_without_ties roster_distinct eq_refl eq_refl H).
Defined.

Lemma set_score_keeps_other_students_witness :
  py_float (PyFloat 60) = Ok 60%float ∧ numeric roster_tie = true ∧
  ∃ rs rs',
    fst (recalculate roster_tie) = Ok rs ∧
    fst (recalculate (snd (set_score 0 "math" (PyFloat 60) roster_tie)))
      = Ok rs' ∧
    length rs' = length rs.
Proof.
  split; [reflexivity|]. split; [reflexivity|].
  destruct (set_score_keeps_other_students 0 "math" (PyFloat 60) 60
              roster_tie eq_refl eq_refl) as (rs & rs' & H1 & H2 & H3 & _).
  exists rs, rs'. split; [exact H1|]. split; [exact H2|exact H3].
Defined.

End MoreWitnesses.
